(** * Planning Poker client (src/App.tsx): model and verified properties

    The React component [App] is embedded as a state record (one field per
    [useState]/[useRef] cell that the logic reads), one function per event
    handler, and a [step] function for the events the component reacts to:
    socket events, the script-load callback and user clicks on the rendered
    controls.  Messages passed to [socket.emit] are returned next to the new
    state.  JavaScript numbers are IEEE 754 binary64 values, taken from the
    standard library's [SpecFloat] at precision 53 and maximal exponent 1024. *)

From Stdlib Require Import ZArith List String Ascii Bool Lia PreOmega.
From Stdlib Require Import Permutation.
From Stdlib Require Import Floats.SpecFloat.
Import ListNotations.

Open Scope string_scope.
Open Scope Z_scope.

(** ** JavaScript numbers *)

Module JSNumber.

Definition number : Type := spec_float.

Definition prec : Z := 53.
Definition emax : Z := 1024.

(** The Number value of a mathematical integer: round to nearest, ties to
    even. *)
Definition ofZ (z : Z) : number := binary_normalize prec emax z 0 false.

(** [a + b] and [a / b]. *)
Definition add (a b : number) : number := SFadd prec emax a b.
Definition div (a b : number) : number := SFdiv prec emax a b.

(** [a === b] on numbers. *)
Definition strictEq (a b : number) : bool := SFeqb a b.

(** Decimal digits of a non-negative integer, without leading zeroes. *)
Definition digitChar (d : Z) : ascii := ascii_of_nat (48 + Z.to_nat d).

Fixpoint digitsAcc (fuel : nat) (n : Z) (acc : string) : string :=
  match fuel with
  | O => acc
  | S fuel' =>
      let acc' := String (digitChar (n mod 10)) acc in
      if n <? 10 then acc' else digitsAcc fuel' (n / 10) acc'
  end.

Definition decimalDigits (n : Z) : string :=
  digitsAcc (S (Z.to_nat (Z.log2 n))) n EmptyString.

(** [Number::toString] for a finite value of magnitude at least 10^21,
    given as the integer [X] it denotes: the shortest digit string [s]
    (of [k] digits) and exponent [n] such that [s * 10^(n-k)] rounds back
    to the value; among candidates of that length the one closest to [X]. *)
Definition roundTrips (X s p : Z) : bool := strictEq (ofZ (s * p)) (ofZ X).

Definition candidatesAt (X nd k : Z) : list (Z * Z) :=
  flat_map
    (fun n =>
       let p := 10 ^ (n - k) in
       let q := X / p in
       filter
         (fun ns => let s := snd ns in
            (10 ^ (k - 1) <=? s) && (s <? 10 ^ k) && roundTrips X s p)
         [(n, q); (n, q + 1)])
    [nd; nd + 1].

Definition closer (X k : Z) (c1 c2 : Z * Z) : Z * Z :=
  let d c := Z.abs (snd c * 10 ^ (fst c - k) - X) in
  if d c2 <? d c1 then c2 else c1.

Fixpoint shortest (fuel : nat) (X nd k : Z) : Z * Z * Z :=
  match fuel with
  | O => (nd, k, X / 10 ^ (nd - k))
  | S fuel' =>
      match candidatesAt X nd k with
      | [] => shortest fuel' X nd (k + 1)
      | c :: cs => let best := fold_left (closer X k) cs c in
                   (fst best, k, snd best)
      end
  end.

Definition exponentForm (X : Z) : string :=
  let nd := Z.of_nat (String.length (decimalDigits X)) in
  let '(n, k, s) := shortest 17 X nd 1 in
  let digits := decimalDigits s in
  let d := decimalDigits (n - 1) in
  if k =? 1 then digits ++ "e+" ++ d
  else substring 0 1 digits ++ "." ++
       substring 1 (String.length digits - 1) digits ++ "e+" ++ d.

(** Digit layout of [toFixed] with one fraction digit, for the integer [n]
    of tenths: pad to two digits, then put the point before the last. *)
Definition layoutTenths (n : Z) : string :=
  let m := decimalDigits n in
  let m := if (String.length m <=? 1)%nat then "0" ++ m else m in
  let k := String.length m in
  substring 0 (k - 1) m ++ "." ++ substring (k - 1) 1 m.

(** The integer [n] for which [n / 10 - m * 2^e] is as close to zero as
    possible, the larger one when there are two. *)
Definition nearestTenths (m : positive) (e : Z) : Z :=
  if 0 <=? e then 10 * Zpos m * 2 ^ e
  else (20 * Zpos m + 2 ^ (- e)) / 2 ^ (1 - e).

Definition atLeast1e21 (m : positive) (e : Z) : bool :=
  if 0 <=? e then 10 ^ 21 <=? Zpos m * 2 ^ e
  else 10 ^ 21 <=? Zpos m / 2 ^ (- e).

Definition integerValue (m : positive) (e : Z) : Z :=
  if 0 <=? e then Zpos m * 2 ^ e else Zpos m / 2 ^ (- e).

(** [x.toFixed(1)]. *)
Definition toFixed1 (x : number) : string :=
  match x with
  | S754_nan => "NaN"
  | S754_infinity false => "Infinity"
  | S754_infinity true => "-Infinity"
  | S754_zero _ => layoutTenths 0
  | S754_finite s m e =>
      (if s then "-" else EmptyString) ++
      (if atLeast1e21 m e then exponentForm (integerValue m e)
       else layoutTenths (nearestTenths m e))
  end.

End JSNumber.

Import JSNumber.

(** ** Data model *)

(** [vote: number | '?' | null] *)
Inductive Vote : Type :=
| VNum (n : number)
| VMasked
| VNull.

Record Player : Type := mkPlayer {
  id : string;
  name : string;
  vote : Vote
}.

(** [const cards = [1, 2, 3, 5, 8, 13, 21]] *)
Definition cards : list number := map ofZ [1; 2; 3; 5; 8; 13; 21].

(** ** calculateAverage *)

(** [typeof v === 'number'] *)
Definition isNumber (v : Vote) : bool :=
  match v with
  | VNum _ => true
  | _ => false
  end.

(** The cast [as number[]] of the filtered array. *)
Definition asNumbers (vs : list Vote) : list number :=
  flat_map (fun v => match v with VNum n => [n] | _ => [] end) vs.

Definition calculateAverage (players : list Player) : string :=
  let votes := asNumbers (filter isNumber (map vote players)) in
  if (List.length votes =? 0)%nat then "0"
  else
    let sum := fold_left (fun acc curr => add acc curr) votes (ofZ 0) in
    toFixed1 (div sum (ofZ (Z.of_nat (List.length votes)))).

(** ** Component state *)

(** The object returned by [window.io(backendUrl)]. *)
Record Socket : Type := mkSocket { url : string }.

Definition backendUrl : string := "https://pythonpoker-production.up.railway.app".

(** One field per [useState] cell, plus [socketRef.current]. *)
Record AppState : Type := mkState {
  selectedCard : option number;
  roomId : string;
  playerName : string;
  players : list Player;
  isRevealed : bool;
  isConnected : bool;
  error : string;
  socketRef : option Socket
}.

Definition initialState : AppState :=
  mkState None EmptyString EmptyString [] false false EmptyString None.

Definition setSelectedCard (v : option number) (s : AppState) : AppState :=
  mkState v (roomId s) (playerName s) (players s) (isRevealed s)
          (isConnected s) (error s) (socketRef s).

Definition setRoomId (v : string) (s : AppState) : AppState :=
  mkState (selectedCard s) v (playerName s) (players s) (isRevealed s)
          (isConnected s) (error s) (socketRef s).

Definition setPlayerName (v : string) (s : AppState) : AppState :=
  mkState (selectedCard s) (roomId s) v (players s) (isRevealed s)
          (isConnected s) (error s) (socketRef s).

Definition setPlayers (v : list Player) (s : AppState) : AppState :=
  mkState (selectedCard s) (roomId s) (playerName s) v (isRevealed s)
          (isConnected s) (error s) (socketRef s).

Definition setIsRevealed (v : bool) (s : AppState) : AppState :=
  mkState (selectedCard s) (roomId s) (playerName s) (players s) v
          (isConnected s) (error s) (socketRef s).

Definition setIsConnected (v : bool) (s : AppState) : AppState :=
  mkState (selectedCard s) (roomId s) (playerName s) (players s)
          (isRevealed s) v (error s) (socketRef s).

Definition setError (v : string) (s : AppState) : AppState :=
  mkState (selectedCard s) (roomId s) (playerName s) (players s)
          (isRevealed s) (isConnected s) v (socketRef s).

Definition setSocketRef (v : option Socket) (s : AppState) : AppState :=
  mkState (selectedCard s) (roomId s) (playerName s) (players s)
          (isRevealed s) (isConnected s) (error s) v.

(** Truthiness of a string: every string but the empty one. *)
Definition truthy (x : string) : bool := negb (String.eqb x EmptyString).

(** Truthiness of [socketRef.current]. *)
Definition hasSocket (s : AppState) : bool :=
  match socketRef s with
  | Some _ => true
  | None => false
  end.

(** ** Messages handed to [socket.emit] *)

Inductive Emit : Type :=
| EmitJoin (rid pname : string)
| EmitVote (rid : string) (v : number)
| EmitReveal (rid : string)
| EmitReset (rid : string).

(** ** Socket event handlers (the [socket.on] callbacks) *)

Inductive SocketEvent : Type :=
| OnConnect
| OnDisconnect
| OnPlayerListUpdate (data : list Player)
| OnPlayerVoted (playerId : string)
| OnVotesRevealed (data : list Player)
| OnGameReset (data : list Player)
| OnError (message : string).

Definition onConnect (s : AppState) : AppState :=
  setIsConnected true s.

Definition onDisconnect (s : AppState) : AppState :=
  setPlayers [] (setRoomId EmptyString (setIsConnected false s)).

Definition onPlayerListUpdate (data : list Player) (s : AppState) : AppState :=
  setPlayers data s.

(** [p.id === data.playerId ? { ...p, vote: '?' } : p] *)
Definition maskIfVoted (playerId : string) (p : Player) : Player :=
  if String.eqb (id p) playerId then mkPlayer (id p) (name p) VMasked else p.

Definition onPlayerVoted (playerId : string) (s : AppState) : AppState :=
  setPlayers (map (maskIfVoted playerId) (players s)) s.

Definition onVotesRevealed (data : list Player) (s : AppState) : AppState :=
  setIsRevealed true (setPlayers data s).

Definition onGameReset (data : list Player) (s : AppState) : AppState :=
  setIsRevealed false (setSelectedCard None (setPlayers data s)).

Definition onError (message : string) (s : AppState) : AppState :=
  setError message s.

Definition handleSocketEvent (e : SocketEvent) (s : AppState) : AppState :=
  match e with
  | OnConnect => onConnect s
  | OnDisconnect => onDisconnect s
  | OnPlayerListUpdate data => onPlayerListUpdate data s
  | OnPlayerVoted playerId => onPlayerVoted playerId s
  | OnVotesRevealed data => onVotesRevealed data s
  | OnGameReset data => onGameReset data s
  | OnError message => onError message s
  end.

(** ** Click handlers *)

Definition handleCardClick (card : number) (s : AppState)
  : AppState * list Emit :=
  if negb (isRevealed s) && isConnected s && hasSocket s && truthy (roomId s)
  then (setSelectedCard (Some card) s, [EmitVote (roomId s) card])
  else (s, []).

(** [currentRoomId] and [currentPlayerName] are the contents of the two
    text inputs of the join form, which is on screen whenever the Join
    button is. *)
Definition handleJoin (currentRoomId currentPlayerName : string)
    (s : AppState) : AppState * list Emit :=
  if hasSocket s && truthy currentRoomId && truthy currentPlayerName
  then (setError EmptyString (setPlayers [] (setPlayerName currentPlayerName
          (setRoomId currentRoomId s))),
        [EmitJoin currentRoomId currentPlayerName])
  else (setError "Please enter a room ID and your name." s, []).

(** How the [fetch] of [/create_room] and the parsing of its body end. *)
Inductive FetchOutcome : Type :=
| FetchOk (newRoomId : string)
| FetchNotOk (status : Z)
| FetchThrewError (message : string)
| FetchThrewOther.

(** [handleCreateRoom] up to its first [await]; [true] when the request is
    issued. *)
Definition handleCreateRoomBegin (currentPlayerName : string) (s : AppState)
  : AppState * bool :=
  if truthy currentPlayerName then (s, true)
  else (setError "Please enter your name before creating a room." s, false).

Definition failedToConnect (message : string) : string :=
  "Failed to connect to the backend: " ++ message ++
  ". Please ensure the Python server is running and accessible.".

(** The rest of [handleCreateRoom], run when the request settles. *)
Definition handleCreateRoomResume (currentPlayerName : string)
    (outcome : FetchOutcome) (s : AppState) : AppState * list Emit :=
  match outcome with
  | FetchOk newRoomId =>
      (setPlayers [] (setPlayerName currentPlayerName (setRoomId newRoomId s)),
       if hasSocket s then [EmitJoin newRoomId currentPlayerName] else [])
  | FetchNotOk status =>
      (setError (failedToConnect
                   ("HTTP error! status: " ++ decimalDigits status)) s, [])
  | FetchThrewError message => (setError (failedToConnect message) s, [])
  | FetchThrewOther =>
      (setError "An unknown error occurred while creating a room." s, [])
  end.

(** The inline handlers of the Reveal and Reset buttons:
    [socketRef.current?.emit('reveal', { roomId })]. *)
Definition requestReveal (s : AppState) : AppState * list Emit :=
  (s, if hasSocket s then [EmitReveal (roomId s)] else []).

Definition requestReset (s : AppState) : AppState * list Emit :=
  (s, if hasSocket s then [EmitReset (roomId s)] else []).

(** ** The rendered controls *)

(** [!roomId ? <join form> : <game board>] *)
Definition inRoom (s : AppState) : bool := truthy (roomId s).

(** [disabled={isRevealed || !isConnected}], on every card button and on the
    Reveal button; the Reset button has no [disabled] attribute. *)
Definition votingDisabled (s : AppState) : bool :=
  isRevealed s || negb (isConnected s).

(** A click on a control.  A control that is not rendered or is disabled
    receives no click. *)
Inductive Click : Type :=
| ClickJoin (roomIdInput playerNameInput : string)
| ClickCreateRoom (playerNameInput : string)
| ClickCard (i : nat)
| ClickReveal
| ClickReset.

Definition click (c : Click) (s : AppState) : AppState * list Emit :=
  match c with
  | ClickJoin r n =>
      if inRoom s then (s, []) else handleJoin r n s
  | ClickCreateRoom n =>
      if inRoom s then (s, []) else (fst (handleCreateRoomBegin n s), [])
  | ClickCard i =>
      if inRoom s && negb (votingDisabled s) then
        match nth_error cards i with
        | Some card => handleCardClick card s
        | None => (s, [])
        end
      else (s, [])
  | ClickReveal =>
      if inRoom s && negb (votingDisabled s) then requestReveal s else (s, [])
  | ClickReset =>
      if inRoom s then requestReset s else (s, [])
  end.

(** ** Events and runs *)

Inductive Event : Type :=
| ScriptLoaded (ioDefined : bool)
| FromSocket (e : SocketEvent)
| FetchSettled (currentPlayerName : string) (outcome : FetchOutcome)
| User (c : Click).

(** [FromSocket] needs the callbacks to be registered, that is a socket;
    [FetchSettled] continues a [handleCreateRoom] that passed its name
    check. *)
Definition step (e : Event) (s : AppState) : AppState * list Emit :=
  match e with
  | ScriptLoaded ioDefined =>
      (if ioDefined then setSocketRef (Some (mkSocket backendUrl)) s else s, [])
  | FromSocket ev =>
      (if hasSocket s then handleSocketEvent ev s else s, [])
  | FetchSettled n outcome =>
      if truthy n then handleCreateRoomResume n outcome s else (s, [])
  | User c => click c s
  end.

Fixpoint run (es : list Event) (s : AppState) : AppState * list Emit :=
  match es with
  | [] => (s, [])
  | e :: es' =>
      let '(s1, out1) := step e s in
      let '(s2, out2) := run es' s1 in
      (s2, (out1 ++ out2)%list)
  end.

Inductive reachable : AppState -> Prop :=
| reachable_init : reachable initialState
| reachable_step e s : reachable s -> reachable (fst (step e s)).


(** ** Vocabulary of the statements *)

(** Broadcasts: the room-scoped messages of the coordinator. *)
Definition isBroadcast (e : SocketEvent) : bool :=
  match e with
  | OnPlayerListUpdate _ | OnPlayerVoted _ | OnVotesRevealed _
  | OnGameReset _ => true
  | _ => false
  end.

(** Events after which the reveal flag may differ. *)
Definition isRevealOrReset (e : Event) : bool :=
  match e with
  | FromSocket (OnVotesRevealed _) | FromSocket (OnGameReset _) => true
  | _ => false
  end.

(** The values of the votes among emitted messages. *)
Definition voteValues (out : list Emit) : list number :=
  flat_map (fun m => match m with EmitVote _ v => [v] | _ => [] end) out.

(** A connected component has a socket: [isConnected] only becomes true in
    a callback registered on the socket, and the socket is never dropped. *)
Definition connectedHasSocket (s : AppState) : Prop :=
  isConnected s = true -> hasSocket s = true.

(** The numeric votes of a players list, in order: masked and absent votes
    are left out. *)
Fixpoint numericVotes (ps : list Player) : list number :=
  match ps with
  | [] => []
  | p :: ps' =>
      match vote p with
      | VNum n => n :: numericVotes ps'
      | VMasked | VNull => numericVotes ps'
      end
  end.

Definition sumZ (zs : list Z) : Z := fold_right Z.add 0 zs.

(** Sample states and inputs on which the theorems are instantiated. *)

Definition ann : Player := mkPlayer "p1" "Ann" VNull.
Definition bob : Player := mkPlayer "p2" "Bob" (VNum (ofZ 8)).

Definition joinedState : AppState :=
  fst (run [ScriptLoaded true; FromSocket OnConnect;
            User (ClickJoin "R1" "Ann");
            FromSocket (OnPlayerListUpdate [ann; bob])] initialState).

Definition revealedState : AppState :=
  fst (run [User (ClickCard 3); FromSocket (OnVotesRevealed [ann; bob])]
           joinedState).

Definition rejoinEvents : list Event :=
  [FromSocket OnConnect; User (ClickJoin "R1" "Ann");
   FromSocket (OnPlayerListUpdate [ann]); User (ClickCard 0)].

Definition voted (pid : string) (z : Z) : Player :=
  mkPlayer pid pid (VNum (ofZ z)).

Definition threeFiveEight : list Player :=
  [voted "a" 3; mkPlayer "b" "b" VMasked; voted "c" 5;
   mkPlayer "d" "d" VNull; voted "e" 8].

Definition nobodyVoted : list Player :=
  [mkPlayer "a" "a" VNull; mkPlayer "b" "b" VMasked].

(** The join form on screen, with the socket object created. *)
Definition loadedState : AppState :=
  fst (run [ScriptLoaded true] initialState).

(** ** Vocabulary of the binary64 proofs *)

Module Binary64.

(** A 53-bit mantissa with its leading bit set. *)
Definition normal53 (m : positive) : Prop := 2 ^ 52 <= Zpos m < 2 ^ 53.

(** Mantissa and exponent of the Number value of an integer of
    (0, 2^53). *)
Definition expo (z : Z) : Z := Z.log2 z - 52.
Definition mant (z : Z) : positive := Z.to_pos (z * 2 ^ (52 - Z.log2 z)).

(** A shift record with no bit lost so far. *)
Definition exactRecord (z : Z) : shr_record := Build_shr_record z false false.

(** The second half of [binary_round_aux]: renormalise the rounded
    mantissa and check the exponent. *)
Definition finishRound (s : bool) (m0 e : Z) : spec_float :=
  let '(mrs, e2) := shr_fexp prec emax m0 e loc_Exact in
  match shr_m mrs with
  | Z0 => S754_zero s
  | Zpos m =>
      if e2 <=? emax - prec then S754_finite s m e2 else S754_infinity s
  | Zneg _ => S754_nan
  end.

(** [fuel] steps are enough to print [n]. *)
Definition enoughFuel (fuel : nat) (n : Z) : Prop :=
  (1 <= fuel)%nat /\ 0 <= n < 10 ^ Z.of_nat fuel.

End Binary64.

(** ** The rendered view *)

(** The three looks of a player's vote cell. *)
Inductive CellStyle : Type :=
| CellRevealed
| CellOwnSelection
| CellPlain.

Record PlayerCell : Type := mkCell {
  cellKey : string;
  cellName : string;
  cellStyle : CellStyle;
  cellContent : Vote
}.

(** [player.vote !== null] *)
Definition notNull (v : Vote) : bool :=
  match v with
  | VNull => false
  | _ => true
  end.

(** [selectedCard !== null] *)
Definition hasSelection (s : AppState) : bool :=
  match selectedCard s with
  | Some _ => true
  | None => false
  end.

(** One entry of [players.map(player => ...)]: the cell shows
    [isRevealed && player.vote !== null ? player.vote : '?']. *)
Definition playerCell (s : AppState) (player : Player) : PlayerCell :=
  mkCell (id player) (name player)
    (if isRevealed s && notNull (vote player) then CellRevealed
     else if hasSelection s && String.eqb (name player) (playerName s)
          then CellOwnSelection
          else CellPlain)
    (if isRevealed s && notNull (vote player) then vote player else VMasked).

Record CardButton : Type := mkCardButton {
  cardValue : number;
  cardDisabled : bool;
  cardHighlighted : bool;
  cardDimmed : bool
}.

(** [selectedCard === card] *)
Definition isSelected (s : AppState) (card : number) : bool :=
  match selectedCard s with
  | Some c => strictEq c card
  | None => false
  end.

(** One entry of [cards.map(card => ...)]. *)
Definition cardButton (s : AppState) (card : number) : CardButton :=
  mkCardButton card (votingDisabled s)
    (isSelected s card && negb (isRevealed s)) (isRevealed s).

(** What the component returns, without the styling that does not depend
    on the state. *)
Inductive View : Type :=
| JoinForm (errorShown : option string)
| GameBoard (roomShown : string) (connectedShown : bool)
    (cells : list PlayerCell) (cardButtons : list CardButton)
    (revealDisabled : bool) (averageShown : option string).

Definition render (s : AppState) : View :=
  if inRoom s then
    GameBoard (roomId s) (isConnected s)
      (map (playerCell s) (players s)) (map (cardButton s) cards)
      (votingDisabled s)
      (if isRevealed s then Some (calculateAverage (players s)) else None)
  else JoinForm (if truthy (error s) then Some (error s) else None).

(** ** Further vocabulary *)

Definition isVotesRevealed (e : Event) : bool :=
  match e with
  | FromSocket (OnVotesRevealed _) => true
  | _ => false
  end.

Definition isScriptLoaded (e : Event) : bool :=
  match e with
  | ScriptLoaded true => true
  | _ => false
  end.

(** The room id a vote, reveal or reset message names. *)
Definition roomOf (m : Emit) : option string :=
  match m with
  | EmitVote rid _ | EmitReveal rid | EmitReset rid => Some rid
  | EmitJoin _ _ => None
  end.

(** What a cell shows for a vote once the votes are revealed. *)
Definition shownWhenRevealed (v : Vote) : Vote :=
  match v with
  | VNull => VMasked
  | _ => v
  end.

(** Two states that differ at most in the error message. *)
Definition sameButError (s1 s2 : AppState) : Prop :=
  setError EmptyString s1 = setError EmptyString s2.

Definition isFetchOk (o : FetchOutcome) : bool :=
  match o with
  | FetchOk _ => true
  | _ => false
  end.


(** * Facts about binary64 arithmetic and decimal printing *)

Module Binary64Facts.

Import Binary64.

(** Positivity of a power of two or ten with a non-negative exponent. *)
Ltac pow_pos := apply Z.pow_pos_nonneg; lia.

Lemma digits2_pos_size (p : positive) : digits2_pos p = Pos.size p.
Proof. induction p; simpl; congruence. Qed.

Lemma digits2_pos_bounds (p : positive) :
  2 ^ (Zpos (digits2_pos p) - 1) <= Zpos p < 2 ^ Zpos (digits2_pos p).
Proof.
  rewrite digits2_pos_size. split.
  - pose proof (Pos.size_le p) as H.
    assert (H' : 2 ^ Zpos (Pos.size p) <= 2 * Zpos p).
    { rewrite <- Pos2Z.inj_pow. change (2 * Zpos p) with (Zpos p~0).
      apply Pos2Z.pos_le_pos. exact H. }
    replace (Zpos (Pos.size p)) with (Z.succ (Zpos (Pos.size p) - 1)) in H' by lia.
    rewrite Z.pow_succ_r in H' by lia. lia.
  - rewrite <- Pos2Z.inj_pow. apply Pos2Z.pos_lt_pos. apply Pos.size_gt.
Qed.

Lemma digits2_pos_unique (p : positive) (d : Z) :
  2 ^ (d - 1) <= Zpos p < 2 ^ d -> Zpos (digits2_pos p) = d.
Proof.
  intros [Hlo Hhi]. pose proof (digits2_pos_bounds p) as [Hlo' Hhi'].
  set (d' := Zpos (digits2_pos p)) in *.
  assert (Hd : 0 < d).
  { destruct (Z.ltb_spec 0 d) as [|Hle]; [assumption|].
    destruct (Z.eq_dec d 0) as [->|Hne]; [simpl in Hhi; lia|].
    rewrite Z.pow_neg_r in Hhi by lia. lia. }
  assert (d - 1 < d') by (apply (Z.pow_lt_mono_r_iff 2); lia).
  assert (d' - 1 < d) by (apply (Z.pow_lt_mono_r_iff 2); lia).
  lia.
Qed.

Lemma iter_pos_nat {A : Type} (f : A -> A) (p : positive) :
  forall x : A, iter_pos f p x = Nat.iter (Pos.to_nat p) f x.
Proof.
  induction p as [p IH | p IH |]; intros x; cbn [iter_pos].
  - rewrite !IH, Pos2Nat.inj_xI. rewrite <- Nat.iter_add.
    replace (S (2 * Pos.to_nat p)) with (S (Pos.to_nat p + Pos.to_nat p))%nat by lia.
    symmetry. apply Nat.iter_succ_r.
  - rewrite !IH, Pos2Nat.inj_xO. rewrite <- Nat.iter_add.
    f_equal. lia.
  - reflexivity.
Qed.

Lemma shr_1_exact (z : Z) : 0 <= z -> shr_1 (exactRecord (2 * z)) = exactRecord z.
Proof. intros Hz. destruct z as [|p|p]; [reflexivity|reflexivity|lia]. Qed.

Lemma iter_shr_1_exact (n : nat) (z : Z) :
  0 <= z -> Nat.iter n shr_1 (exactRecord (z * 2 ^ Z.of_nat n)) = exactRecord z.
Proof.
  intros Hz. induction n as [|n IH].
  - simpl. rewrite Z.mul_1_r. reflexivity.
  - rewrite Nat.iter_succ_r.
    replace (z * 2 ^ Z.of_nat (S n)) with (2 * (z * 2 ^ Z.of_nat n)).
    + rewrite shr_1_exact by (apply Z.mul_nonneg_nonneg; [lia|apply Z.pow_nonneg; lia]).
      exact IH.
    + rewrite Nat2Z.inj_succ, Z.pow_succ_r by lia. ring.
Qed.

Lemma shr_exact (z e n : Z) :
  0 <= z -> 0 <= n ->
  shr (exactRecord (z * 2 ^ n)) e n = (exactRecord z, e + n).
Proof.
  intros Hz Hn. destruct n as [|p|p]; [| |lia].
  - simpl. rewrite Z.mul_1_r, Z.add_0_r. reflexivity.
  - unfold shr. rewrite iter_pos_nat.
    rewrite <- (positive_nat_Z p) at 1.
    rewrite iter_shr_1_exact by assumption. reflexivity.
Qed.

Lemma fexp_normal (x : Z) : -1021 <= x -> fexp prec emax x = x - 53.
Proof. intros Hx. unfold fexp, emin, prec, emax. lia. Qed.

Lemma Zdigits2_scaled (m : positive) (n : Z) :
  normal53 m -> 0 <= n -> Zdigits2 (Zpos m * 2 ^ n) = 53 + n.
Proof.
  intros [Hlo Hhi] Hn.
  assert (Hpow : 0 < 2 ^ n) by pow_pos.
  destruct (Zpos m * 2 ^ n) as [|M|M] eqn:HM; [lia| |lia].
  cbn [Zdigits2]. apply digits2_pos_unique. rewrite <- HM.
  replace (53 + n - 1) with (52 + n) by lia.
  rewrite !Z.pow_add_r by lia. split.
  - apply Z.mul_le_mono_nonneg_r; lia.
  - apply Z.mul_lt_mono_pos_r; lia.
Qed.

Lemma Zdigits2_normal (m : positive) : normal53 m -> Zdigits2 (Zpos m) = 53.
Proof.
  intros Hm. cbn [Zdigits2]. apply digits2_pos_unique. exact Hm.
Qed.

Lemma binary_round_aux_exact (s : bool) (m : positive) (e n : Z) :
  normal53 m -> -1074 <= e <= 971 -> 0 <= n ->
  binary_round_aux prec emax s (Zpos m * 2 ^ n) (e - n) loc_Exact
  = S754_finite s m e.
Proof.
  intros Hm He Hn. unfold binary_round_aux, shr_fexp.
  rewrite Zdigits2_scaled by assumption.
  rewrite fexp_normal by lia.
  replace (53 + n + (e - n) - 53 - (e - n)) with n by lia.
  change (shr_record_of_loc (Zpos m * 2 ^ n) loc_Exact)
    with (exactRecord (Zpos m * 2 ^ n)).
  rewrite shr_exact by lia.
  cbn [exactRecord shr_m loc_of_shr_record round_nearest_even shr_record_of_loc].
  rewrite Zdigits2_normal by assumption.
  rewrite fexp_normal by lia.
  replace (53 + (e - n + n) - 53 - (e - n + n)) with 0 by lia.
  cbn [shr shr_m].
  replace (e - n + n) with e by lia.
  unfold emax, prec. destruct (Z.leb_spec e (1024 - 53)); [reflexivity|lia].
Qed.

Lemma pos_iter_xO (m d : positive) :
  Zpos (Pos.iter xO m d) = Zpos m * 2 ^ Zpos d.
Proof.
  induction d as [|d IH] using Pos.peano_ind.
  - simpl. lia.
  - rewrite Pos.iter_succ, Pos2Z.inj_succ, Z.pow_succ_r by lia.
    rewrite Pos2Z.inj_xO, IH. ring.
Qed.

Lemma shl_align_fst (mx : positive) (ex ez : Z) :
  ez <= ex -> Zpos (fst (shl_align mx ex ez)) = Zpos mx * 2 ^ (ex - ez).
Proof.
  intros Hle. unfold shl_align.
  destruct (ez - ex) as [|d|d] eqn:Hd.
  - replace (ex - ez) with 0 by lia. simpl. lia.
  - lia.
  - cbn [fst]. rewrite pos_iter_xO. f_equal. f_equal. lia.
Qed.

Lemma shl_align_snd (mx : positive) (ex ez : Z) :
  ez <= ex -> snd (shl_align mx ex ez) = ez.
Proof.
  intros Hle. unfold shl_align.
  destruct (ez - ex) as [|d|d] eqn:Hd; cbn [snd]; lia.
Qed.

Lemma shl_align_id (mx : positive) (ex ez : Z) :
  ex <= ez -> shl_align mx ex ez = (mx, ex).
Proof.
  intros Hle. unfold shl_align.
  destruct (ez - ex) as [|d|d] eqn:Hd; [reflexivity|reflexivity|lia].
Qed.

Lemma binary_round_repr (s : bool) (M : positive) (E : Z) (m : positive) (e : Z) :
  normal53 m -> -1074 <= e <= 971 ->
  (E <= e -> Zpos M = Zpos m * 2 ^ (e - E)) ->
  (e <= E -> Zpos m = Zpos M * 2 ^ (E - e)) ->
  binary_round prec emax s M E = S754_finite s m e.
Proof.
  intros Hm He Hle Hge. unfold binary_round.
  assert (Hdig : Zpos (digits2_pos M) + E = 53 + e).
  { destruct (Z.le_ge_cases E e) as [H|H].
    - specialize (Hle H).
      change (Zpos (digits2_pos M)) with (Zdigits2 (Zpos M)).
      rewrite Hle, Zdigits2_scaled by (assumption || lia). lia.
    - specialize (Hge H). destruct Hm as [Hlo Hhi].
      assert (Hk : E - e <= 52).
      { destruct (Z.le_gt_cases (E - e) 52) as [|Hgt]; [assumption|exfalso].
        assert (2 ^ 53 <= 2 ^ (E - e)) by (apply Z.pow_le_mono_r; lia).
        nia. }
      assert (Hd : Zpos (digits2_pos M) = 53 - (E - e)).
      { apply digits2_pos_unique.
        assert (Hp : 0 < 2 ^ (E - e)) by pow_pos.
        assert (H52 : 2 ^ 52 = 2 ^ (53 - (E - e) - 1) * 2 ^ (E - e)).
        { rewrite <- Z.pow_add_r by lia. f_equal. lia. }
        assert (H53 : 2 ^ 53 = 2 ^ (53 - (E - e)) * 2 ^ (E - e)).
        { rewrite <- Z.pow_add_r by lia. f_equal. lia. }
        rewrite Hge, H52 in Hlo. rewrite Hge, H53 in Hhi.
        split.
        - apply Z.mul_le_mono_pos_r in Hlo; assumption.
        - apply Z.mul_lt_mono_pos_r in Hhi; assumption. }
      lia. }
  rewrite Hdig, fexp_normal by lia.
  replace (53 + e - 53) with e by lia.
  destruct (Z.le_gt_cases E e) as [H|H].
  - rewrite shl_align_id by assumption.
    rewrite (Hle H). replace E with (e - (e - E)) at 2 by lia.
    apply binary_round_aux_exact; (assumption || lia).
  - rewrite (surjective_pairing (shl_align M E e)).
    rewrite shl_align_snd by lia.
    assert (Hfst : fst (shl_align M E e) = m).
    { apply Pos2Z.inj. rewrite shl_align_fst by lia. symmetry. apply Hge. lia. }
    rewrite Hfst.
    replace (Zpos m) with (Zpos m * 2 ^ 0) by (simpl; lia).
    replace e with (e - 0) at 1 by lia.
    apply binary_round_aux_exact; (assumption || lia).
Qed.

Lemma mant_expo (z : Z) :
  0 < z < 2 ^ 53 ->
  normal53 (mant z) /\ -52 <= expo z <= 0
  /\ Zpos (mant z) = z * 2 ^ (- expo z).
Proof.
  intros [Hpos Hlt]. unfold normal53, mant, expo.
  pose proof (Z.log2_spec z Hpos) as [Hlo Hhi].
  pose proof (Z.log2_nonneg z) as Hnn.
  assert (Hl : Z.log2 z < 53).
  { apply Z.log2_lt_pow2; lia. }
  assert (Hp : 0 < 2 ^ (52 - Z.log2 z)) by pow_pos.
  rewrite Z2Pos.id by nia.
  replace (- (Z.log2 z - 52)) with (52 - Z.log2 z) by lia.
  assert (H52 : 2 ^ 52 = 2 ^ Z.log2 z * 2 ^ (52 - Z.log2 z)).
  { rewrite <- Z.pow_add_r by lia. f_equal. lia. }
  assert (H53 : 2 ^ 53 = 2 ^ Z.succ (Z.log2 z) * 2 ^ (52 - Z.log2 z)).
  { rewrite <- Z.pow_add_r by lia. f_equal. lia. }
  rewrite H52, H53. repeat split; try lia.
  - apply Z.mul_le_mono_nonneg_r; lia.
  - apply Z.mul_lt_mono_pos_r; lia.
Qed.

Lemma ofZ_pos (z : Z) :
  0 < z < 2 ^ 53 -> ofZ z = S754_finite false (mant z) (expo z).
Proof.
  intros Hz. destruct (mant_expo z Hz) as (Hm & He & Hv).
  unfold ofZ. destruct z as [|p|p]; [lia| |lia].
  cbn [binary_normalize]. apply binary_round_repr; try assumption; try lia.
  - intros H0. assert (Heq : expo (Zpos p) = 0) by lia.
    rewrite Heq in Hv |- *. simpl in Hv. simpl. lia.
  - intros _. rewrite Hv. reflexivity.
Qed.

Lemma add_ofZ_pos (a b : Z) :
  0 < a -> 0 < b -> a + b < 2 ^ 53 -> add (ofZ a) (ofZ b) = ofZ (a + b).
Proof.
  intros Ha Hb Hab.
  rewrite (ofZ_pos a), (ofZ_pos b), (ofZ_pos (a + b)) by lia.
  destruct (mant_expo a) as (Hma & Hea & Hva); [lia|].
  destruct (mant_expo b) as (Hmb & Heb & Hvb); [lia|].
  destruct (mant_expo (a + b)) as (Hmc & Hec & Hvc); [lia|].
  unfold add. cbn [SFadd cond_Zopp].
  set (ez := Z.min (expo a) (expo b)).
  rewrite !shl_align_fst by lia.
  assert (Hpow : forall x y, 0 <= x -> 0 <= y -> 2 ^ x * 2 ^ y = 2 ^ (x + y)).
  { intros x y Hx Hy. rewrite Z.pow_add_r by lia. reflexivity. }
  assert (Hsum : Zpos (mant a) * 2 ^ (expo a - ez)
                 + Zpos (mant b) * 2 ^ (expo b - ez) = (a + b) * 2 ^ (- ez)).
  { rewrite Hva, Hvb, <- !Z.mul_assoc, !Hpow by lia.
    replace (- expo a + (expo a - ez)) with (- ez) by lia.
    replace (- expo b + (expo b - ez)) with (- ez) by lia. ring. }
  rewrite Hsum.
  assert (Hp : 0 < 2 ^ (- ez)) by pow_pos.
  destruct ((a + b) * 2 ^ (- ez)) as [|M|M] eqn:HM; [nia| |nia].
  cbn [binary_normalize]. apply binary_round_repr; try assumption; try lia.
  - intros Hle. rewrite Hvc, <- Z.mul_assoc, Hpow by lia.
    rewrite <- HM. f_equal. f_equal. lia.
  - intros Hle. rewrite <- HM, Hvc, <- Z.mul_assoc, Hpow by lia.
    f_equal. f_equal. lia.
Qed.

Lemma add_ofZ (a b : Z) :
  0 <= a -> 0 <= b -> a + b < 2 ^ 53 -> add (ofZ a) (ofZ b) = ofZ (a + b).
Proof.
  intros Ha Hb Hab.
  destruct (Z.eq_dec a 0) as [->|Hna]; destruct (Z.eq_dec b 0) as [->|Hnb].
  - reflexivity.
  - rewrite Z.add_0_l, (ofZ_pos b) by lia. reflexivity.
  - rewrite Z.add_0_r, (ofZ_pos a) by lia. reflexivity.
  - apply add_ofZ_pos; lia.
Qed.

Lemma fold_add_ofZ (zs : list Z) :
  forall acc : Z,
    0 <= acc -> Forall (fun z => 0 <= z) zs -> acc + sumZ zs < 2 ^ 53 ->
    fold_left add (map ofZ zs) (ofZ acc) = ofZ (acc + sumZ zs).
Proof.
  induction zs as [|z zs IH]; intros acc Hacc Hall Hlt.
  - simpl. rewrite Z.add_0_r. reflexivity.
  - inversion Hall as [|? ? Hz Hzs]; subst.
    assert (Hs : 0 <= sumZ zs).
    { clear - Hzs. induction Hzs; simpl; lia. }
    simpl in Hlt |- *. rewrite add_ofZ by lia.
    rewrite IH by (assumption || lia). f_equal. lia.
Qed.

Lemma new_location_spec (d r : Z) :
  0 < d -> 0 <= r < d ->
  match new_location d r with
  | loc_Exact => r = 0
  | loc_Inexact Lt => 0 < r /\ 2 * r < d
  | loc_Inexact Eq => 0 < r /\ 2 * r = d
  | loc_Inexact Gt => d < 2 * r
  end.
Proof.
  intros Hd Hr. unfold new_location, new_location_even, new_location_odd.
  pose proof (Zmod_even d) as Hev.
  destruct (Z.even d); destruct (Z.eqb_spec r 0) as [H0|H0]; try assumption.
  - destruct (Z.compare_spec (2 * r) d); lia.
  - destruct (Z.compare_spec (2 * r + 1) d); try lia.
    revert Hev. Z.div_mod_to_equations. lia.
Qed.

Lemma binary_round_aux_finish (s : bool) (mx ex : Z) (lx : location) :
  binary_round_aux prec emax s mx ex lx
  = finishRound s
      (round_nearest_even (shr_m (fst (shr_fexp prec emax mx ex lx)))
         (loc_of_shr_record (fst (shr_fexp prec emax mx ex lx))))
      (snd (shr_fexp prec emax mx ex lx)).
Proof.
  unfold binary_round_aux, finishRound.
  destruct (shr_fexp prec emax mx ex lx) as [mrs e1]. reflexivity.
Qed.

Lemma shr_fexp_53 (q : positive) (e : Z) (l : location) :
  normal53 q -> -1074 <= e ->
  shr_fexp prec emax (Zpos q) e l = (shr_record_of_loc (Zpos q) l, e).
Proof.
  intros Hq He. unfold shr_fexp.
  rewrite Zdigits2_normal, fexp_normal by (assumption || lia).
  replace (53 + e - 53 - e) with 0 by lia. reflexivity.
Qed.

Lemma shr_fexp_54 (q : positive) (e : Z) (l : location) :
  2 ^ 53 <= Zpos q < 2 ^ 54 -> -1074 <= e ->
  shr_fexp prec emax (Zpos q) e l = (shr_1 (shr_record_of_loc (Zpos q) l), e + 1).
Proof.
  intros Hq He. unfold shr_fexp.
  assert (Hd : Zdigits2 (Zpos q) = 54).
  { cbn [Zdigits2]. apply digits2_pos_unique. exact Hq. }
  rewrite Hd, fexp_normal by lia.
  replace (54 + e - 53 - e) with 1 by lia. reflexivity.
Qed.

Lemma finishRound_spec (s : bool) (m0 e : Z) :
  2 ^ 52 <= m0 <= 2 ^ 53 -> -1074 <= e <= 970 ->
  exists (m : positive) (j : Z),
    finishRound s m0 e = S754_finite s m (e + j)
    /\ normal53 m /\ 0 <= j <= 1 /\ 2 ^ j * Zpos m = m0.
Proof.
  intros Hm He. unfold finishRound.
  destruct m0 as [|q|q]; [lia| |lia].
  destruct (Z.eq_dec (Zpos q) (2 ^ 53)) as [Heq|Hne].
  - exists (Z.to_pos (2 ^ 52)), 1.
    rewrite shr_fexp_54 by lia. rewrite Heq.
    cbn [shr_record_of_loc]. 
    change (shr_1 {| shr_m := 2 ^ 53; shr_r := false; shr_s := false |})
      with {| shr_m := 2 ^ 52; shr_r := false; shr_s := false |}.
    cbn [shr_m]. change (2 ^ 52) with (Zpos (Z.to_pos (2 ^ 52))) at 1.
    cbv beta iota.
    unfold emax, prec. destruct (Z.leb_spec (e + 1) (1024 - 53)); [|lia].
    split; [reflexivity|]. split; [unfold normal53; simpl; lia|].
    split; [lia|reflexivity].
  - exists q, 0.
    assert (Hq : normal53 q) by (unfold normal53; lia).
    rewrite shr_fexp_53 by (assumption || lia).
    cbn [shr_record_of_loc shr_m].
    unfold emax, prec. destruct (Z.leb_spec e (1024 - 53)); [|lia].
    rewrite Z.add_0_r. split; [reflexivity|]. split; [assumption|].
    split; [lia|]. simpl. lia.
Qed.

Lemma round_53_bound (q : positive) (d r : Z) :
  0 < d -> 0 <= r < d ->
  let rec0 := shr_record_of_loc (Zpos q) (new_location d r) in
  let m0 := round_nearest_even (shr_m rec0) (loc_of_shr_record rec0) in
  Zpos q <= m0 <= Zpos q + 1
  /\ 2 * Z.abs (m0 * d - (Zpos q * d + r)) <= d.
Proof.
  intros Hd Hr. pose proof (new_location_spec d r Hd Hr) as Hloc.
  destruct (new_location d r) as [|[| |]];
    cbn [shr_record_of_loc shr_m loc_of_shr_record round_nearest_even];
    try (destruct (Z.even (Zpos q))); split; try lia; nia.
Qed.

Lemma round_54_bound (q : positive) (d r : Z) :
  0 < d -> 0 <= r < d -> 2 <= Zpos q ->
  let rec1 := shr_1 (shr_record_of_loc (Zpos q) (new_location d r)) in
  let m0 := round_nearest_even (shr_m rec1) (loc_of_shr_record rec1) in
  Zpos q <= 2 * m0 + 1 /\ 2 * m0 <= Zpos q + 1
  /\ Z.abs (2 * m0 * d - (Zpos q * d + r)) <= d.
Proof.
  intros Hd Hr Hq. pose proof (new_location_spec d r Hd Hr) as Hloc.
  destruct (new_location d r) as [|[| |]]; destruct q as [p|p|]; try lia;
    cbn [shr_record_of_loc shr_1 orb shr_m loc_of_shr_record
         round_nearest_even];
    try (destruct (Z.even (Zpos p))); repeat split; try lia; try nia.
Qed.

Lemma div_finite (mx my : positive) (ex ey : Z) :
  normal53 mx -> normal53 my -> -52 <= ex <= 0 -> -52 <= ey <= 0 ->
  exists (m : positive) (j : Z),
    div (S754_finite false mx ex) (S754_finite false my ey)
    = S754_finite false m (ex - ey - 53 + j)
    /\ normal53 m /\ 0 <= j <= 2
    /\ 2 * Z.abs (2 ^ j * Zpos m * Zpos my - Zpos mx * 2 ^ 53)
       <= 2 ^ j * Zpos my.
Proof.
  intros Hmx Hmy Hex Hey.
  unfold div. cbn [SFdiv xorb]. unfold SFdiv_core_binary.
  rewrite !Zdigits2_normal by assumption.
  rewrite fexp_normal by lia.
  replace (Z.min (53 + ex - (53 + ey) - 53) (ex - ey))
    with (ex - ey - 53) by lia.
  replace (ex - ey - (ex - ey - 53)) with 53 by lia.
  rewrite Z.shiftl_mul_pow2 by lia.
  pose proof (Z_div_mod (Zpos mx * 2 ^ 53) (Zpos my) eq_refl) as Hdiv.
  destruct (Z.div_eucl (Zpos mx * 2 ^ 53) (Zpos my)) as [q r].
  destruct Hdiv as [Hqr Hr].
  destruct Hmx as [Hxlo Hxhi]. destruct Hmy as [Hylo Hyhi].
  assert (Hq : 2 ^ 52 <= q < 2 ^ 54) by (split; nia).
  rewrite binary_round_aux_finish.
  destruct q as [|q|q]; [lia| |lia].
  assert (Hd : 0 < Zpos my) by lia.
  destruct (Z.lt_ge_cases (Zpos q) (2 ^ 53)) as [H53|H54].
  - rewrite shr_fexp_53 by (unfold normal53; lia). cbn [fst snd].
    destruct (round_53_bound q (Zpos my) r Hd Hr) as [Hm0 Hb].
    destruct (finishRound_spec false
                (round_nearest_even
                   (shr_m (shr_record_of_loc (Zpos q)
                             (new_location (Zpos my) r)))
                   (loc_of_shr_record
                      (shr_record_of_loc (Zpos q)
                         (new_location (Zpos my) r))))
                (ex - ey - 53)) as (m & j & Hfin & Hm & Hj & Hval);
      [lia | lia |].
    exists m, j. rewrite Hfin. split; [reflexivity|].
    split; [assumption|]. split; [lia|].
    rewrite <- Hval in Hb. rewrite Hqr.
    assert (Hj' : j = 0 \/ j = 1) by lia.
    destruct Hj' as [-> | ->]; simpl (2 ^ _) in *; lia.
  - rewrite shr_fexp_54 by lia. cbn [fst snd].
    destruct (round_54_bound q (Zpos my) r Hd Hr) as (Hm0 & Hm1 & Hb);
      [lia|].
    destruct (finishRound_spec false
                (round_nearest_even
                   (shr_m (shr_1 (shr_record_of_loc (Zpos q)
                                    (new_location (Zpos my) r))))
                   (loc_of_shr_record
                      (shr_1 (shr_record_of_loc (Zpos q)
                                (new_location (Zpos my) r)))))
                (ex - ey - 53 + 1)) as (m & j & Hfin & Hm & Hj & Hval);
      [lia | lia |].
    exists m, (1 + j). rewrite Hfin. split; [f_equal; lia|].
    split; [assumption|]. split; [lia|].
    rewrite <- Hval in Hb. rewrite Hqr.
    assert (Hj' : j = 0 \/ j = 1) by lia.
    destruct Hj' as [-> | ->]; simpl (2 ^ _) in *; lia.
Qed.

Lemma div_ofZ (a b : Z) :
  0 < a <= 2 ^ 48 -> 0 < b < 2 ^ 53 ->
  exists (m : positive) (k : Z),
    div (ofZ a) (ofZ b) = S754_finite false m (- k)
    /\ normal53 m /\ 3 <= k
    /\ 2 * Z.abs (Zpos m * b - a * 2 ^ k) <= b.
Proof.
  intros Ha Hb.
  rewrite (ofZ_pos a), (ofZ_pos b) by lia.
  destruct (mant_expo a) as (Hma & Hea & Hva); [lia|].
  destruct (mant_expo b) as (Hmb & Heb & Hvb); [lia|].
  assert (Hea' : expo a <= -4).
  { unfold expo. assert (Z.log2 a <= 48); [|lia].
    rewrite <- (Z.log2_pow2 48) by lia. apply Z.log2_le_mono. lia. }
  destruct (div_finite (mant a) (mant b) (expo a) (expo b))
    as (m & j & Hdiv & Hm & Hj & Hbound); try assumption.
  remember (53 + expo b - expo a - j) as k eqn:Hk.
  exists m, k. rewrite Hdiv. split; [f_equal; lia|].
  split; [assumption|]. split; [lia|].
  remember (2 ^ j * 2 ^ (- expo b)) as P eqn:HeqP.
  assert (HP : 0 < P).
  { subst P. apply Z.mul_pos_pos; pow_pos. }
  assert (Hsplit : 2 ^ (- expo a) * 2 ^ 53 = P * 2 ^ k).
  { subst P. rewrite <- !Z.pow_add_r by lia. f_equal. lia. }
  assert (Heq : 2 ^ j * Zpos m * Zpos (mant b) - Zpos (mant a) * 2 ^ 53
                = P * (Zpos m * b - a * 2 ^ k)).
  { rewrite Hva, Hvb.
    replace (a * 2 ^ (- expo a) * 2 ^ 53)
      with (a * (2 ^ (- expo a) * 2 ^ 53)) by ring.
    rewrite Hsplit, HeqP. ring. }
  rewrite Heq, Z.abs_mul, (Z.abs_eq P) in Hbound by lia.
  replace (2 ^ j * Zpos (mant b)) with (P * b) in Hbound
    by (rewrite Hvb, HeqP; ring).
  apply (Z.mul_le_mono_pos_l _ _ P HP). lia.
Qed.

Lemma nearest_tenths_bound (a b m k : Z) :
  0 < a <= 2 ^ 48 -> 0 < b -> 2 ^ 52 <= m -> 0 <= k ->
  2 * Z.abs (m * b - a * 2 ^ k) <= b ->
  2 * Z.abs (10 * a - (20 * m + 2 ^ k) / 2 ^ (1 + k) * b) <= b.
Proof.
  intros Ha Hb Hm Hk Hround.
  replace (2 ^ (1 + k)) with (2 * 2 ^ k)
    by (rewrite Z.pow_add_r by lia; reflexivity).
  assert (HT : 0 < 2 ^ k) by pow_pos.
  remember (2 ^ k) as T eqn:HeqT.
  remember ((20 * m + T) / (2 * T)) as n eqn:Heqn.
  assert (Hn : 2 * T * n <= 20 * m + T < 2 * T * (n + 1)).
  { subst n. pose proof (Z.div_mod (20 * m + T) (2 * T)) as Hdm.
    pose proof (Z.mod_pos_bound (20 * m + T) (2 * T)) as Hmb.
    lia. }
  assert (Hlo : 2 * a * T - b <= 2 * m * b) by lia.
  assert (Hhi : 2 * m * b <= 2 * a * T + b) by lia.
  assert (HTb : 10 * b < T).
  { assert (2 ^ 53 * b <= 2 * m * b) by nia.
    assert (2 * a * T <= 2 ^ 49 * T) by nia.
    lia. }
  destruct (Z.le_gt_cases (2 * Z.abs (10 * a - n * b)) b) as [|Hbad];
    [assumption|exfalso].
  destruct (Z.le_gt_cases (n * b) (10 * a)) as [Hle|Hgt].
  - assert (H1 : 2 * n * b + b + 1 <= 20 * a) by lia.
    assert (H2 : 20 * m * b < T * (2 * n + 1) * b) by nia.
    assert (H3 : (2 * n * b + b + 1) * T <= 20 * a * T) by nia.
    nia.
  - assert (H1 : 20 * a <= 2 * n * b - b - 1) by lia.
    assert (H2 : T * (2 * n - 1) * b <= 20 * m * b) by nia.
    assert (H3 : 20 * a * T <= (2 * n * b - b - 1) * T) by nia.
    nia.
Qed.

Lemma append_assoc (s1 s2 s3 : string) : (s1 ++ s2) ++ s3 = s1 ++ (s2 ++ s3).
Proof. induction s1 as [|c s1 IH]; simpl; congruence. Qed.

Lemma digitsAcc_app (fuel : nat) :
  forall (n : Z) (acc : string),
    digitsAcc fuel n acc = digitsAcc fuel n EmptyString ++ acc.
Proof.
  induction fuel as [|fuel IH]; intros n acc; [reflexivity|].
  cbn [digitsAcc]. destruct (n <? 10); [reflexivity|].
  rewrite IH. rewrite (IH _ (String _ EmptyString)).
  rewrite append_assoc. reflexivity.
Qed.

Lemma enoughFuel_div (fuel : nat) (n : Z) :
  enoughFuel (S fuel) n -> 10 <= n -> enoughFuel fuel (n / 10).
Proof.
  intros [_ [Hn0 Hn]] H10.
  rewrite Nat2Z.inj_succ, Z.pow_succ_r in Hn by lia.
  destruct fuel as [|fuel]; [simpl in Hn; lia|].
  split; [lia|]. split.
  - apply Z.div_pos; lia.
  - apply Z.div_lt_upper_bound; lia.
Qed.

Lemma digitsAcc_fuel (f1 : nat) :
  forall (f2 : nat) (n : Z) (acc : string),
    enoughFuel f1 n -> enoughFuel f2 n ->
    digitsAcc f1 n acc = digitsAcc f2 n acc.
Proof.
  induction f1 as [|f1 IH]; intros f2 n acc H1 H2.
  - destruct H1 as [H1 _]. lia.
  - destruct f2 as [|f2]; [destruct H2 as [H2 _]; lia|].
    cbn [digitsAcc]. destruct (Z.ltb_spec n 10) as [|H10]; [reflexivity|].
    apply IH; apply enoughFuel_div; assumption.
Qed.

Lemma decimalDigits_fuel (n : Z) :
  0 <= n -> enoughFuel (S (Z.to_nat (Z.log2 n))) n.
Proof.
  intros Hn. split; [lia|]. split; [assumption|].
  rewrite Nat2Z.inj_succ, Z2Nat.id by apply Z.log2_nonneg.
  destruct (Z.eq_dec n 0) as [->|Hne]; [simpl; lia|].
  pose proof (Z.log2_spec n) as [_ Hhi]; [lia|].
  eapply Z.lt_le_trans; [exact Hhi|].
  apply Z.pow_le_mono_l. lia.
Qed.

Lemma decimalDigits_small (n : Z) :
  0 <= n < 10 -> decimalDigits n = String (digitChar n) EmptyString.
Proof.
  intros Hn. unfold decimalDigits. cbn [digitsAcc].
  rewrite Z.mod_small by lia.
  destruct (Z.ltb_spec n 10); [reflexivity|lia].
Qed.

Lemma decimalDigits_step (n : Z) :
  10 <= n ->
  decimalDigits n
  = decimalDigits (n / 10) ++ String (digitChar (n mod 10)) EmptyString.
Proof.
  intros Hn. unfold decimalDigits at 1. cbn [digitsAcc].
  destruct (Z.ltb_spec n 10); [lia|].
  rewrite digitsAcc_app. f_equal.
  apply digitsAcc_fuel.
  - apply enoughFuel_div; [|assumption]. apply decimalDigits_fuel. lia.
  - apply decimalDigits_fuel. apply Z.div_pos; lia.
Qed.

Lemma decimalDigits_nonempty (n : Z) : (1 <= String.length (decimalDigits n))%nat.
Proof.
  unfold decimalDigits. cbn [digitsAcc].
  destruct (n <? 10); [simpl; lia|].
  rewrite digitsAcc_app.
  generalize (digitsAcc (Z.to_nat (Z.log2 n)) (n / 10) EmptyString).
  intros s. induction s as [|c s IH]; simpl; lia.
Qed.

Lemma length_append (s1 s2 : string) :
  String.length (s1 ++ s2) = (String.length s1 + String.length s2)%nat.
Proof. induction s1 as [|c s1 IH]; simpl; congruence. Qed.

Lemma substring_prefix (s1 s2 : string) :
  substring 0 (String.length s1) (s1 ++ s2) = s1.
Proof.
  induction s1 as [|c s1 IH]; simpl.
  - destruct s2; reflexivity.
  - rewrite IH. reflexivity.
Qed.

Lemma substring_last (s1 : string) (c : ascii) :
  substring (String.length s1) 1 (s1 ++ String c EmptyString) = String c EmptyString.
Proof. induction s1 as [|c1 s1 IH]; simpl; [reflexivity|exact IH]. Qed.

Lemma layoutTenths_digits (n : Z) :
  0 <= n ->
  layoutTenths n = decimalDigits (n / 10) ++ "." ++ decimalDigits (n mod 10).
Proof.
  intros Hn. unfold layoutTenths.
  assert (Hmod : 0 <= n mod 10 < 10) by (apply Z.mod_pos_bound; lia).
  rewrite (decimalDigits_small (n mod 10)) by assumption.
  destruct (Z.lt_ge_cases n 10) as [Hlt|Hge].
  - rewrite Z.div_small by lia. rewrite Z.mod_small by lia.
    rewrite decimalDigits_small by lia. reflexivity.
  - rewrite decimalDigits_step by assumption.
    pose proof (decimalDigits_nonempty (n / 10)) as Hlen.
    set (A := decimalDigits (n / 10)) in *.
    set (d := digitChar (n mod 10)).
    assert (Hl : String.length (A ++ String d EmptyString) = S (String.length A)).
    { rewrite length_append. simpl. lia. }
    cbv zeta. rewrite Hl.
    destruct (Nat.leb_spec (S (String.length A)) 1) as [|_]; [lia|].
    rewrite Hl.
    replace (S (String.length A) - 1)%nat with (String.length A) by lia.
    rewrite substring_prefix, substring_last. reflexivity.
Qed.

Lemma toFixed1_small (m : positive) (k : Z) :
  Zpos m < 2 ^ 53 -> 0 < k ->
  toFixed1 (S754_finite false m (- k))
  = layoutTenths ((20 * Zpos m + 2 ^ k) / 2 ^ (1 + k)).
Proof.
  intros Hm Hk. unfold toFixed1, atLeast1e21, nearestTenths.
  destruct (Z.leb_spec 0 (- k)) as [|_]; [lia|].
  rewrite Z.opp_involutive.
  replace (1 - - k) with (1 + k) by lia.
  assert (Hp : 0 < 2 ^ k) by pow_pos.
  assert (Hq : Zpos m / 2 ^ k < 10 ^ 21).
  { apply Z.div_lt_upper_bound; [assumption|].
    assert (2 ^ 53 < 10 ^ 21) by reflexivity. nia. }
  destruct (Z.leb_spec (10 ^ 21) (Zpos m / 2 ^ k)); [lia|]. reflexivity.
Qed.

Lemma sumZ_nonneg (zs : list Z) : Forall (fun z => 0 <= z) zs -> 0 <= sumZ zs.
Proof. intros H. induction H; simpl; lia. Qed.

Lemma average_of_integers (zs : list Z) :
  zs <> [] -> Forall (fun z => 0 <= z) zs ->
  sumZ zs <= 2 ^ 48 -> Z.of_nat (List.length zs) < 2 ^ 32 ->
  exists n : Z,
    0 <= n
    /\ 2 * Z.abs (10 * sumZ zs - n * Z.of_nat (List.length zs))
       <= Z.of_nat (List.length zs)
    /\ toFixed1 (div (fold_left add (map ofZ zs) (ofZ 0))
                     (ofZ (Z.of_nat (List.length (map ofZ zs)))))
       = decimalDigits (n / 10) ++ "." ++ decimalDigits (n mod 10).
Proof.
  intros Hne Hall Hsum Hlen.
  pose proof (sumZ_nonneg zs Hall) as Hs0.
  assert (Hb : 0 < Z.of_nat (List.length zs)).
  { destruct zs; [contradiction|]. simpl List.length. lia. }
  rewrite fold_add_ofZ by (assumption || lia).
  rewrite length_map, Z.add_0_l.
  remember (Z.of_nat (List.length zs)) as b eqn:Heqb.
  remember (sumZ zs) as a eqn:Heqa.
  destruct (Z.eq_dec a 0) as [Ha0|Ha0].
  - exists 0. rewrite Ha0. split; [lia|]. split; [simpl; lia|].
    rewrite (ofZ_pos b) by lia. reflexivity.
  - destruct (div_ofZ a b) as (m & k & Hdiv & Hm & Hk & Hround); [lia|lia|].
    exists ((20 * Zpos m + 2 ^ k) / 2 ^ (1 + k)).
    assert (Hn : 0 <= (20 * Zpos m + 2 ^ k) / 2 ^ (1 + k)).
    { assert (0 < 2 ^ k) by pow_pos.
      assert (0 < 2 ^ (1 + k)) by pow_pos.
      apply Z.div_pos; lia. }
    split; [assumption|]. split.
    + apply nearest_tenths_bound; try lia. destruct Hm; assumption.
    + rewrite Hdiv, toFixed1_small by (destruct Hm; lia).
      apply layoutTenths_digits. assumption.
Qed.

End Binary64Facts.
(** * Properties of the component *)

(** ** Basic facts about runs and reachable states *)

Lemma truthy_true (x : string) : truthy x = true <-> x <> EmptyString.
Proof.
  unfold truthy. rewrite negb_true_iff. apply String.eqb_neq.
Qed.

Lemma truthy_false (x : string) : truthy x = false <-> x = EmptyString.
Proof.
  unfold truthy. rewrite negb_false_iff. apply String.eqb_eq.
Qed.

Lemma run_cons (e : Event) (es : list Event) (s : AppState) :
  run (e :: es) s =
  (fst (run es (fst (step e s))),
   (snd (step e s) ++ snd (run es (fst (step e s))))%list).
Proof.
  simpl. destruct (step e s) as [s1 out1]. simpl.
  destruct (run es s1) as [s2 out2]. reflexivity.
Qed.

Lemma run_reachable (es : list Event) :
  forall s, reachable s -> reachable (fst (run es s)).
Proof.
  induction es as [|e es IH]; intros s Hs.
  - exact Hs.
  - rewrite run_cons. simpl. apply IH. constructor. exact Hs.
Qed.

Lemma step_connectedHasSocket (e : Event) (s : AppState) :
  connectedHasSocket s -> connectedHasSocket (fst (step e s)).
Proof.
  unfold connectedHasSocket. intros Inv.
  destruct e as [io | ev | n outcome | c]; simpl.
  - destruct io; simpl; auto.
  - destruct (hasSocket s) eqn:Hsock; [|simpl; rewrite Hsock; exact Inv].
    destruct ev; simpl; intros; exact Hsock.
  - destruct (truthy n); [|exact Inv].
    destruct outcome; simpl; exact Inv.
  - destruct c as [r n | n | i | | ]; simpl.
    + destruct (inRoom s); [exact Inv|]. unfold handleJoin.
      destruct (hasSocket s && truthy r && truthy n); simpl; exact Inv.
    + destruct (inRoom s); [exact Inv|]. unfold handleCreateRoomBegin.
      destruct (truthy n); simpl; exact Inv.
    + destruct (inRoom s && negb (votingDisabled s)); [|exact Inv].
      destruct (nth_error cards i); [|exact Inv]. unfold handleCardClick.
      destruct (negb (isRevealed s) && isConnected s && hasSocket s
                && truthy (roomId s)); simpl; exact Inv.
    + destruct (inRoom s && negb (votingDisabled s)); exact Inv.
    + destruct (inRoom s); exact Inv.
Qed.

Lemma reachable_connectedHasSocket (s : AppState) :
  reachable s -> connectedHasSocket s.
Proof.
  induction 1 as [|e s _ IH].
  - unfold connectedHasSocket. simpl. discriminate.
  - apply step_connectedHasSocket. exact IH.
Qed.

Lemma joinedState_reachable : reachable joinedState.
Proof. apply run_reachable. constructor. Qed.

Lemma revealedState_reachable : reachable revealedState.
Proof. apply run_reachable. exact joinedState_reachable. Qed.

(** ** Applying broadcasts *)

(** C2 as stated does not hold: after a [player_voted] broadcast the players
    list depends on the previous local list, so two clients that receive the
    same broadcast in different local states end with different lists. *)
Lemma player_voted_reads_previous_players :
  ~ (forall (e : SocketEvent) (s1 s2 : AppState),
        isBroadcast e = true ->
        players (handleSocketEvent e s1) = players (handleSocketEvent e s2)).
Proof.
  intros H.
  specialize (H (OnPlayerVoted "p1") (setPlayers [ann] initialState)
                initialState eq_refl).
  simpl in H. discriminate H.
Qed.

Lemma nth_error_maskIfVoted (playerId : string) (ps : list Player) (i : nat) :
  nth_error (map (maskIfVoted playerId) ps) i
  = option_map (maskIfVoted playerId) (nth_error ps i).
Proof. apply nth_error_map. Qed.

(** C2 (amended): the three broadcasts that carry a players list replace the
    local list by the payload, whatever the previous state; [votes_revealed]
    sets the reveal flag, [game_reset] clears it and [player_list_update]
    leaves it.  The [player_voted] broadcast carries a player id only: its
    handler computes the new list from the previous local one, which keeps
    its length and order; an entry whose id is the one sent keeps its id and
    name and gets the masked vote, every other entry is kept as it is. *)
Theorem broadcast_projection
    (s : AppState) (data : list Player) (playerId : string) :
  (players (handleSocketEvent (OnPlayerListUpdate data) s) = data
   /\ isRevealed (handleSocketEvent (OnPlayerListUpdate data) s)
      = isRevealed s)
  /\ (players (handleSocketEvent (OnVotesRevealed data) s) = data
      /\ isRevealed (handleSocketEvent (OnVotesRevealed data) s) = true)
  /\ (players (handleSocketEvent (OnGameReset data) s) = data
      /\ isRevealed (handleSocketEvent (OnGameReset data) s) = false)
  /\ (List.length (players (handleSocketEvent (OnPlayerVoted playerId) s))
      = List.length (players s)
      /\ forall (i : nat) (p : Player),
           nth_error (players s) i = Some p ->
           (id p = playerId ->
            nth_error
              (players (handleSocketEvent (OnPlayerVoted playerId) s)) i
            = Some (mkPlayer (id p) (name p) VMasked))
           /\ (id p <> playerId ->
               nth_error
                 (players (handleSocketEvent (OnPlayerVoted playerId) s)) i
               = Some p)).
Proof.
  split; [split; reflexivity|]. split; [split; reflexivity|].
  split; [split; reflexivity|]. split; [apply length_map|].
  intros i p Hp. simpl. rewrite nth_error_maskIfVoted, Hp. simpl.
  unfold maskIfVoted. split; intros Hid.
  - apply String.eqb_eq in Hid. rewrite Hid. reflexivity.
  - apply String.eqb_neq in Hid. rewrite Hid. reflexivity.
Qed.

Lemma broadcast_projection_witness :
  players (handleSocketEvent (OnPlayerListUpdate [bob]) joinedState) = [bob]
  /\ nth_error (players (handleSocketEvent (OnPlayerVoted "p2") joinedState)) 1
     = Some (mkPlayer "p2" "Bob" VMasked)
  /\ nth_error (players (handleSocketEvent (OnPlayerVoted "p2") joinedState)) 0
     = Some ann.
Proof.
  destruct (broadcast_projection joinedState [bob] "p2")
    as ((Hlist & _) & _ & _ & _ & Hnth).
  split; [exact Hlist|]. split.
  - apply (Hnth 1%nat bob); reflexivity.
  - apply (Hnth 0%nat ann); [reflexivity|]. simpl. discriminate.
Defined.

(** C5: the disconnect callback sets [isConnected] to false, [roomId] to the
    empty string and [players] to the empty list; the component is then
    outside any room. *)
Theorem disconnect_clears_room (s : AppState) :
  isConnected (handleSocketEvent OnDisconnect s) = false
  /\ roomId (handleSocketEvent OnDisconnect s) = EmptyString
  /\ players (handleSocketEvent OnDisconnect s) = []
  /\ inRoom (handleSocketEvent OnDisconnect s) = false.
Proof. repeat split. Qed.

(** C6: [game_reset] replaces the players by the payload, clears the
    selected card and the reveal flag; [votes_revealed] replaces the players
    by the payload and sets the reveal flag. *)
Theorem reset_and_reveal_broadcasts (s : AppState) (data : list Player) :
  (players (handleSocketEvent (OnGameReset data) s) = data
   /\ selectedCard (handleSocketEvent (OnGameReset data) s) = None
   /\ isRevealed (handleSocketEvent (OnGameReset data) s) = false)
  /\ (players (handleSocketEvent (OnVotesRevealed data) s) = data
      /\ isRevealed (handleSocketEvent (OnVotesRevealed data) s) = true).
Proof. repeat split. Qed.

(** C7: a [player_voted] broadcast, for any player id, leaves the selected
    card and the reveal flag as they were; the players list keeps its
    length and order, an entry whose id is the one sent gets the masked
    vote and keeps its id and name, every other entry is unchanged. *)
Theorem player_voted_frame (s : AppState) (playerId : string) :
  selectedCard (handleSocketEvent (OnPlayerVoted playerId) s) = selectedCard s
  /\ isRevealed (handleSocketEvent (OnPlayerVoted playerId) s) = isRevealed s
  /\ List.length (players (handleSocketEvent (OnPlayerVoted playerId) s))
     = List.length (players s)
  /\ forall (i : nat) (p : Player),
       nth_error (players s) i = Some p ->
       (id p = playerId ->
        nth_error (players (handleSocketEvent (OnPlayerVoted playerId) s)) i
        = Some (mkPlayer (id p) (name p) VMasked))
       /\ (id p <> playerId ->
           nth_error (players (handleSocketEvent (OnPlayerVoted playerId) s)) i
           = Some p).
Proof.
  split; [reflexivity|]. split; [reflexivity|].
  split; [apply length_map|].
  intros i p Hp. simpl. rewrite nth_error_maskIfVoted, Hp. simpl.
  unfold maskIfVoted. split; intros Hid.
  - apply String.eqb_eq in Hid. rewrite Hid. reflexivity.
  - apply String.eqb_neq in Hid. rewrite Hid. reflexivity.
Qed.

Lemma player_voted_frame_witness :
  selectedCard (handleSocketEvent (OnPlayerVoted "p2")
                  (fst (click (ClickCard 3) joinedState))) = Some (ofZ 5)
  /\ nth_error (players (handleSocketEvent (OnPlayerVoted "p2")
                           (fst (click (ClickCard 3) joinedState)))) 1
     = Some (mkPlayer "p2" "Bob" VMasked)
  /\ nth_error (players (handleSocketEvent (OnPlayerVoted "p2")
                           (fst (click (ClickCard 3) joinedState)))) 0
     = Some ann.
Proof.
  destruct (player_voted_frame (fst (click (ClickCard 3) joinedState)) "p2")
    as (Hsel & _ & _ & Hnth).
  split; [rewrite Hsel; reflexivity|]. split.
  - apply (Hnth 1%nat bob); reflexivity.
  - apply (Hnth 0%nat ann); [reflexivity|]. simpl. discriminate.
Defined.

(** ** Clicks *)

(** C3: in every reachable state, [handleCardClick] changes nothing and
    sends nothing unless the component is connected, has a room id and the
    votes are not revealed; when the three hold it emits exactly one vote
    carrying the value clicked and the room id, the selected card of the
    new state is that value, and every other field is as before. *)
Theorem handleCardClick_guarded (s : AppState) (card : number) :
  reachable s ->
  (isConnected s = true /\ roomId s <> EmptyString /\ isRevealed s = false ->
   snd (handleCardClick card s) = [EmitVote (roomId s) card]
   /\ selectedCard (fst (handleCardClick card s)) = Some card
   /\ roomId (fst (handleCardClick card s)) = roomId s
   /\ playerName (fst (handleCardClick card s)) = playerName s
   /\ players (fst (handleCardClick card s)) = players s
   /\ isRevealed (fst (handleCardClick card s)) = isRevealed s
   /\ isConnected (fst (handleCardClick card s)) = isConnected s
   /\ error (fst (handleCardClick card s)) = error s
   /\ socketRef (fst (handleCardClick card s)) = socketRef s)
  /\ (~ (isConnected s = true /\ roomId s <> EmptyString
         /\ isRevealed s = false) ->
      handleCardClick card s = (s, [])).
Proof.
  intros Hreach. apply reachable_connectedHasSocket in Hreach. split.
  - intros (Hconn & Hroom & Hrev).
    assert (Hclick : handleCardClick card s
                     = (setSelectedCard (Some card) s,
                        [EmitVote (roomId s) card])).
    { unfold handleCardClick. rewrite (Hreach Hconn), Hconn, Hrev.
      apply truthy_true in Hroom. rewrite Hroom. reflexivity. }
    rewrite Hclick. repeat split.
  - intros Hnot. unfold handleCardClick.
    destruct (isRevealed s) eqn:Hrev; [reflexivity|].
    destruct (isConnected s) eqn:Hconn; [|reflexivity].
    destruct (truthy (roomId s)) eqn:Hroom.
    + exfalso. apply Hnot. apply truthy_true in Hroom. auto.
    + rewrite andb_false_r. reflexivity.
Qed.

Lemma handleCardClick_guarded_witness :
  reachable joinedState
  /\ snd (handleCardClick (ofZ 5) joinedState) = [EmitVote "R1" (ofZ 5)]
  /\ selectedCard joinedState = None
  /\ selectedCard (fst (handleCardClick (ofZ 5) joinedState)) = Some (ofZ 5)
  /\ players (fst (handleCardClick (ofZ 5) joinedState)) = [ann; bob]
  /\ handleCardClick (ofZ 5) revealedState = (revealedState, []).
Proof.
  destruct (handleCardClick_guarded joinedState (ofZ 5) joinedState_reachable)
    as [Hvote _].
  destruct Hvote as (Hout & Hsel & _ & _ & Hplayers & _).
  { repeat split. simpl. discriminate. }
  split; [exact joinedState_reachable|].
  split; [exact Hout|]. split; [reflexivity|].
  split; [exact Hsel|]. split; [exact Hplayers|].
  apply (handleCardClick_guarded revealedState (ofZ 5)
           revealedState_reachable).
  intros (_ & _ & Hrev). simpl in Hrev. discriminate Hrev.
Defined.

(** C4 as stated does not hold: before the socket object exists (the
    initial state), a join with both fields filled in sends nothing, sets no
    room id and shows the validation message. *)
Lemma join_before_socket_is_rejected :
  "R1" <> EmptyString /\ "Ann" <> EmptyString
  /\ handleJoin "R1" "Ann" initialState
     = (setError "Please enter a room ID and your name." initialState, []).
Proof.
  split; [discriminate|]. split; [discriminate|]. reflexivity.
Qed.

(** C4 (amended): [handleJoin] with an empty room id or an empty name (or
    with no socket object) sends nothing; the error of the new state is the
    validation message, every other field is as before, and outside a room
    the join form shows that message.  With both fields non-empty and a
    socket object it emits exactly one join carrying the two fields, and in
    the new state, before any event from the server, the room id and the
    player name are the two fields, the players list and the error are
    empty, the component is in the room, and the other fields are as
    before. *)
Theorem handleJoin_spec (s : AppState) (rid pname : string) :
  (rid = EmptyString \/ pname = EmptyString \/ hasSocket s = false ->
   snd (handleJoin rid pname s) = []
   /\ error (fst (handleJoin rid pname s))
      = "Please enter a room ID and your name."
   /\ roomId (fst (handleJoin rid pname s)) = roomId s
   /\ playerName (fst (handleJoin rid pname s)) = playerName s
   /\ players (fst (handleJoin rid pname s)) = players s
   /\ selectedCard (fst (handleJoin rid pname s)) = selectedCard s
   /\ isRevealed (fst (handleJoin rid pname s)) = isRevealed s
   /\ isConnected (fst (handleJoin rid pname s)) = isConnected s
   /\ socketRef (fst (handleJoin rid pname s)) = socketRef s
   /\ (inRoom s = false ->
       render (fst (handleJoin rid pname s))
       = JoinForm (Some "Please enter a room ID and your name.")))
  /\ (rid <> EmptyString -> pname <> EmptyString -> hasSocket s = true ->
      snd (handleJoin rid pname s) = [EmitJoin rid pname]
      /\ roomId (fst (handleJoin rid pname s)) = rid
      /\ playerName (fst (handleJoin rid pname s)) = pname
      /\ players (fst (handleJoin rid pname s)) = []
      /\ error (fst (handleJoin rid pname s)) = EmptyString
      /\ inRoom (fst (handleJoin rid pname s)) = true
      /\ selectedCard (fst (handleJoin rid pname s)) = selectedCard s
      /\ isRevealed (fst (handleJoin rid pname s)) = isRevealed s
      /\ isConnected (fst (handleJoin rid pname s)) = isConnected s
      /\ socketRef (fst (handleJoin rid pname s)) = socketRef s).
Proof.
  unfold handleJoin. split.
  - intros Hrej.
    assert (Hguard : hasSocket s && truthy rid && truthy pname = false).
    { destruct Hrej as [H | [H | H]].
      - apply truthy_false in H. rewrite H, andb_false_r. reflexivity.
      - apply truthy_false in H. rewrite H, andb_false_r. reflexivity.
      - rewrite H. reflexivity. }
    rewrite Hguard. cbn [fst snd]. repeat split.
    intros Hroom. unfold render, inRoom in *.
    cbn [setError roomId error]. rewrite Hroom. reflexivity.
  - intros Hr Hn Hs. apply truthy_true in Hr, Hn.
    rewrite Hr, Hn, Hs. cbn [andb fst snd]. repeat split.
    unfold inRoom.
    cbn [setError setPlayers setPlayerName setRoomId roomId]. exact Hr.
Qed.

Lemma handleJoin_spec_witness :
  inRoom loadedState = false
  /\ snd (handleJoin EmptyString "Ann" loadedState) = []
  /\ roomId (fst (handleJoin EmptyString "Ann" loadedState)) = EmptyString
  /\ render (fst (handleJoin EmptyString "Ann" loadedState))
     = JoinForm (Some "Please enter a room ID and your name.")
  /\ snd (handleJoin "R2" "Ann" loadedState) = [EmitJoin "R2" "Ann"]
  /\ roomId (fst (handleJoin "R2" "Ann" loadedState)) = "R2"
  /\ playerName (fst (handleJoin "R2" "Ann" loadedState)) = "Ann".
Proof.
  destruct (handleJoin_spec loadedState EmptyString "Ann") as [Hrej _].
  destruct Hrej as (Hnone & _ & Hroom0 & _ & _ & _ & _ & _ & _ & Hshown);
    [left; reflexivity|].
  destruct (handleJoin_spec loadedState "R2" "Ann") as [_ Hok].
  destruct Hok as (Hout & Hroom & Hname & _);
    [discriminate | discriminate | reflexivity |].
  split; [reflexivity|]. split; [exact Hnone|]. split; [exact Hroom0|].
  split; [apply Hshown; reflexivity|].
  split; [exact Hout|]. split; assumption.
Defined.




(** ** Votes sent *)

Lemma voteValues_app (out1 out2 : list Emit) :
  voteValues (out1 ++ out2) = (voteValues out1 ++ voteValues out2)%list.
Proof. apply flat_map_app. Qed.

Lemma handleCardClick_votes (card : number) (s : AppState) (v : number) :
  In v (voteValues (snd (handleCardClick card s))) -> v = card.
Proof.
  unfold handleCardClick.
  destruct (negb (isRevealed s) && isConnected s && hasSocket s
            && truthy (roomId s)); simpl; intuition congruence.
Qed.

Lemma step_votes_in_cards (e : Event) (s : AppState) (v : number) :
  In v (voteValues (snd (step e s))) -> In v cards.
Proof.
  intros Hv.
  destruct e as [io | ev | n outcome | c]; simpl in Hv; try contradiction.
  - destruct (truthy n); [|contradiction].
    destruct outcome; simpl in Hv; try contradiction.
    destruct (hasSocket s); simpl in Hv; contradiction.
  - destruct c as [r n | n | i | | ]; simpl in Hv.
    + destruct (inRoom s); [contradiction|]. unfold handleJoin in Hv.
      destruct (hasSocket s && truthy r && truthy n); simpl in Hv;
        contradiction.
    + destruct (inRoom s); contradiction.
    + destruct (inRoom s && negb (votingDisabled s)); [|contradiction].
      destruct (nth_error cards i) as [card|] eqn:Hnth; [|contradiction].
      apply handleCardClick_votes in Hv. subst v.
      eapply nth_error_In. exact Hnth.
    + destruct (inRoom s && negb (votingDisabled s)); [|contradiction].
      unfold requestReveal in Hv. destruct (hasSocket s); contradiction.
    + destruct (inRoom s); [|contradiction].
      unfold requestReset in Hv. destruct (hasSocket s); contradiction.
Qed.

(** C9: along any run of the component from any state, every vote handed to
    [socket.emit] carries one of the values 1, 2, 3, 5, 8, 13, 21 of the
    [cards] array. *)
Theorem emitted_votes_are_cards
    (es : list Event) (s : AppState) (v : number) :
  In v (voteValues (snd (run es s))) ->
  exists z : Z, In z [1; 2; 3; 5; 8; 13; 21] /\ v = ofZ z.
Proof.
  intros Hv.
  assert (Hcards : In v cards).
  { revert s Hv. induction es as [|e es IH]; intros s Hv.
    - contradiction.
    - rewrite run_cons in Hv. simpl in Hv. rewrite voteValues_app in Hv.
      apply in_app_or in Hv. destruct Hv as [Hv | Hv].
      + eapply step_votes_in_cards. exact Hv.
      + eapply IH. exact Hv. }
  unfold cards in Hcards. apply in_map_iff in Hcards.
  destruct Hcards as (z & Hz & Hin). exists z. auto.
Qed.

Lemma emitted_votes_are_cards_witness :
  In (ofZ 5) (voteValues (snd (run [User (ClickCard 3)] joinedState)))
  /\ exists z : Z, In z [1; 2; 3; 5; 8; 13; 21] /\ ofZ 5 = ofZ z.
Proof.
  assert (H : In (ofZ 5)
                 (voteValues (snd (run [User (ClickCard 3)] joinedState)))).
  { simpl. left. reflexivity. }
  split; [exact H|].
  exact (emitted_votes_are_cards [User (ClickCard 3)] joinedState (ofZ 5) H).
Defined.

(** ** What a disconnect leaves in place *)

Lemma step_keeps_revealed (e : Event) (s : AppState) :
  isRevealed s = true -> isRevealOrReset e = false ->
  isRevealed (fst (step e s)) = true
  /\ selectedCard (fst (step e s)) = selectedCard s.
Proof.
  intros Hrev He.
  destruct e as [io | ev | n outcome | c]; simpl.
  - destruct io; simpl; auto.
  - destruct (hasSocket s); [|auto].
    destruct ev; simpl; auto; discriminate He.
  - destruct (truthy n); [|auto]. destruct outcome; simpl; auto.
  - destruct c as [r n | n | i | | ]; simpl.
    + destruct (inRoom s); [auto|]. unfold handleJoin.
      destruct (hasSocket s && truthy r && truthy n); simpl; auto.
    + destruct (inRoom s); [auto|]. unfold handleCreateRoomBegin.
      destruct (truthy n); simpl; auto.
    + unfold votingDisabled. rewrite Hrev. simpl.
      rewrite andb_false_r. auto.
    + destruct (inRoom s && negb (votingDisabled s)); auto.
    + destruct (inRoom s); auto.
Qed.

Lemma run_keeps_revealed (es : list Event) :
  forall s : AppState,
    isRevealed s = true ->
    forallb (fun e => negb (isRevealOrReset e)) es = true ->
    isRevealed (fst (run es s)) = true
    /\ selectedCard (fst (run es s)) = selectedCard s.
Proof.
  induction es as [|e es IH]; intros s Hrev Hes.
  - auto.
  - simpl in Hes. apply andb_true_iff in Hes. destruct Hes as [He Hes].
    apply negb_true_iff in He.
    destruct (step_keeps_revealed e s Hrev He) as [Hrev1 Hsel1].
    rewrite run_cons. simpl.
    destruct (IH (fst (step e s)) Hrev1 Hes) as [Hrev2 Hsel2].
    split; [exact Hrev2 | congruence].
Qed.

(** C10: the disconnect callback changes neither the reveal flag nor the
    selected card (nor the player name, the error or the socket object).
    Hence, when the votes are revealed at the time of a disconnect, the
    reveal flag stays true and the selected card stays what it was through
    every later event, a reconnect and a new join included, up to the next
    [votes_revealed] or [game_reset] broadcast. *)
Theorem disconnect_keeps_reveal_and_selection
    (s : AppState) (es : list Event) :
  (isRevealed (handleSocketEvent OnDisconnect s) = isRevealed s
   /\ selectedCard (handleSocketEvent OnDisconnect s) = selectedCard s
   /\ playerName (handleSocketEvent OnDisconnect s) = playerName s
   /\ error (handleSocketEvent OnDisconnect s) = error s
   /\ socketRef (handleSocketEvent OnDisconnect s) = socketRef s)
  /\ (isRevealed s = true ->
      forallb (fun e => negb (isRevealOrReset e)) es = true ->
      isRevealed (fst (run (FromSocket OnDisconnect :: es) s)) = true
      /\ selectedCard (fst (run (FromSocket OnDisconnect :: es) s))
         = selectedCard s).
Proof.
  split; [repeat split|].
  intros Hrev Hes.
  apply (run_keeps_revealed (FromSocket OnDisconnect :: es) s Hrev).
  simpl. exact Hes.
Qed.

Lemma disconnect_keeps_reveal_and_selection_witness :
  isRevealed revealedState = true
  /\ roomId (fst (run (FromSocket OnDisconnect :: rejoinEvents)
                      revealedState)) = "R1"
  /\ isRevealed (fst (run (FromSocket OnDisconnect :: rejoinEvents)
                          revealedState)) = true
  /\ selectedCard (fst (run (FromSocket OnDisconnect :: rejoinEvents)
                            revealedState)) = Some (ofZ 5).
Proof.
  split; [reflexivity|]. split; [reflexivity|].
  exact (proj2 (disconnect_keeps_reveal_and_selection revealedState
                  rejoinEvents) eq_refl eq_refl).
Defined.

(** ** The average *)

Lemma filtered_votes_numeric (ps : list Player) :
  asNumbers (filter isNumber (map vote ps)) = numericVotes ps.
Proof.
  induction ps as [|p ps IH]; [reflexivity|].
  simpl. destruct (vote p); simpl; rewrite ?IH; reflexivity.
Qed.

Lemma calculateAverage_numeric (ps : list Player) :
  calculateAverage ps
  = match numericVotes ps with
    | [] => "0"
    | _ :: _ =>
        toFixed1 (div (fold_left add (numericVotes ps) (ofZ 0))
                      (ofZ (Z.of_nat (List.length (numericVotes ps)))))
    end.
Proof.
  unfold calculateAverage. rewrite filtered_votes_numeric.
  destruct (numericVotes ps); reflexivity.
Qed.

Lemma numericVotes_length (ps : list Player) :
  (List.length (numericVotes ps) <= List.length ps)%nat.
Proof.
  induction ps as [|p ps IH]; [apply Nat.le_refl|].
  simpl. destruct (vote p); simpl; lia.
Qed.





(** The scenario of two players voting 5 and 8: the average shown after
    the reveal is 6.5, and 0 again after the reset. *)
Example calculateAverage_after_reveal_and_reset :
  calculateAverage
    (players (handleSocketEvent
                (OnVotesRevealed [voted "A" 5; voted "B" 8]) joinedState))
  = "6.5"
  /\ calculateAverage
       (players (handleSocketEvent
                   (OnGameReset [mkPlayer "A" "A" VNull; mkPlayer "B" "B" VNull])
                   revealedState))
     = "0".
Proof. split; vm_compute; reflexivity. Qed.

(** When the exact mean lies halfway between two tenths, the digit printed
    depends on the binary64 quotient: eighteen votes of 1, one of 3 and one
    of 8 have mean 1.45, the quotient is just below it, and 1.4 is shown. *)
Example calculateAverage_halfway :
  sumZ (3 :: 8 :: repeat 1 18) * 100 = 145 * 20
  /\ calculateAverage (voted "a" 3 :: voted "b" 8 :: repeat (voted "c" 1) 18)
     = "1.4".
Proof. split; vm_compute; reflexivity. Qed.

(** * Further properties *)

(** ** What is sent, and when *)

Lemma step_without_socket (e : Event) (s : AppState) :
  hasSocket s = false -> isScriptLoaded e = false ->
  snd (step e s) = []
  /\ hasSocket (fst (step e s)) = false
  /\ isConnected (fst (step e s)) = isConnected s
  /\ isRevealed (fst (step e s)) = isRevealed s
  /\ selectedCard (fst (step e s)) = selectedCard s.
Proof.
  intros Hsock He.
  destruct e as [io | ev | n outcome | c]; simpl.
  - destruct io; [discriminate He|]. auto.
  - rewrite Hsock. auto.
  - destruct (truthy n); [|auto].
    destruct outcome; simpl; rewrite ?Hsock; auto.
  - destruct c as [r n | n | i | | ]; simpl.
    + destruct (inRoom s); [auto|]. unfold handleJoin. rewrite Hsock.
      simpl. auto.
    + destruct (inRoom s); [auto|]. unfold handleCreateRoomBegin.
      destruct (truthy n); simpl; auto.
    + destruct (inRoom s && negb (votingDisabled s)); [|auto].
      destruct (nth_error cards i); [|auto]. unfold handleCardClick.
      rewrite Hsock, andb_false_r. simpl. auto.
    + destruct (inRoom s && negb (votingDisabled s)); [|auto].
      unfold requestReveal. rewrite Hsock. auto.
    + destruct (inRoom s); [|auto].
      unfold requestReset. rewrite Hsock. auto.
Qed.

(** X1: as long as the socket.io script has not loaded (no socket object),
    no event makes the component send anything: clicks, settled requests
    and socket events alike.  The socket stays absent and the connection
    flag, the reveal flag and the selected card keep their values. *)
Theorem nothing_sent_before_script_loads (es : list Event) (s : AppState) :
  hasSocket s = false ->
  forallb (fun e => negb (isScriptLoaded e)) es = true ->
  snd (run es s) = []
  /\ hasSocket (fst (run es s)) = false
  /\ isConnected (fst (run es s)) = isConnected s
  /\ isRevealed (fst (run es s)) = isRevealed s
  /\ selectedCard (fst (run es s)) = selectedCard s.
Proof.
  revert s. induction es as [|e es IH]; intros s Hsock Hes.
  - simpl. auto.
  - simpl in Hes. apply andb_true_iff in Hes. destruct Hes as [He Hes].
    apply negb_true_iff in He.
    destruct (step_without_socket e s Hsock He)
      as (Hout & Hsock1 & Hconn & Hrev & Hsel).
    destruct (IH (fst (step e s)) Hsock1 Hes)
      as (Hout2 & Hsock2 & Hconn2 & Hrev2 & Hsel2).
    rewrite run_cons. simpl. rewrite Hout, Hout2.
    repeat split; congruence.
Qed.

Lemma nothing_sent_before_script_loads_witness :
  snd (run [User (ClickJoin "R1" "Ann"); ScriptLoaded false;
            FetchSettled "Ann" (FetchOk "R7"); User ClickReset;
            User (ClickCard 2)] initialState) = []
  /\ roomId (fst (run [User (ClickJoin "R1" "Ann"); ScriptLoaded false;
                       FetchSettled "Ann" (FetchOk "R7"); User ClickReset;
                       User (ClickCard 2)] initialState)) = "R7".
Proof.
  split; [|reflexivity].
  apply (nothing_sent_before_script_loads
           [User (ClickJoin "R1" "Ann"); ScriptLoaded false;
            FetchSettled "Ann" (FetchOk "R7"); User ClickReset;
            User (ClickCard 2)] initialState); reflexivity.
Defined.

(** X2: every vote, reveal and reset the component sends names the room id
    it holds at that moment, which is not empty; sending one needs the
    socket object and changes neither the room id nor the players; a vote
    or a reveal is sent only while connected and not revealed. *)
Theorem room_messages_name_current_room
    (e : Event) (s : AppState) (m : Emit) (rid : string) :
  In m (snd (step e s)) -> roomOf m = Some rid ->
  rid = roomId s /\ rid <> EmptyString /\ hasSocket s = true
  /\ roomId (fst (step e s)) = roomId s
  /\ players (fst (step e s)) = players s
  /\ (m <> EmitReset rid -> isConnected s = true /\ isRevealed s = false).
Proof.
  intros Hin Hroom.
  destruct e as [io | ev | n outcome | c]; simpl in Hin; try contradiction.
  - destruct (truthy n); [|contradiction].
    destruct outcome; simpl in Hin; try contradiction.
    destruct (hasSocket s); [|contradiction].
    destruct Hin as [<-|[]]. discriminate Hroom.
  - destruct c as [r n | n | i | | ]; simpl in Hin |- *.
    + destruct (inRoom s); [contradiction|]. unfold handleJoin in Hin.
      destruct (hasSocket s && truthy r && truthy n); simpl in Hin;
        [|contradiction].
      destruct Hin as [<-|[]]. discriminate Hroom.
    + destruct (inRoom s); contradiction.
    + unfold inRoom, votingDisabled in *.
      destruct (truthy (roomId s)) eqn:Hr; [|contradiction].
      destruct (isRevealed s) eqn:Hrev; [contradiction|].
      destruct (isConnected s) eqn:Hconn; [|contradiction].
      simpl in Hin |- *.
      destruct (nth_error cards i) as [card|]; [|contradiction].
      unfold handleCardClick in *. rewrite Hrev, Hconn, Hr in *.
      destruct (hasSocket s) eqn:Hsock; simpl in Hin |- *; [|contradiction].
      destruct Hin as [<-|[]]. simpl in Hroom. injection Hroom as <-.
      apply truthy_true in Hr. repeat split; auto.
    + unfold inRoom, votingDisabled in *.
      destruct (truthy (roomId s)) eqn:Hr; [|contradiction].
      destruct (isRevealed s) eqn:Hrev; [contradiction|].
      destruct (isConnected s) eqn:Hconn; [|contradiction].
      simpl in Hin |- *. unfold requestReveal in *.
      destruct (hasSocket s) eqn:Hsock; simpl in Hin |- *; [|contradiction].
      destruct Hin as [<-|[]]. simpl in Hroom. injection Hroom as <-.
      apply truthy_true in Hr. repeat split; auto.
    + unfold inRoom in *.
      destruct (truthy (roomId s)) eqn:Hr; [|contradiction].
      unfold requestReset in *.
      destruct (hasSocket s) eqn:Hsock; simpl in Hin |- *; [|contradiction].
      destruct Hin as [<-|[]]. simpl in Hroom. injection Hroom as <-.
      apply truthy_true in Hr. repeat split; auto;
        intros; exfalso; auto.
Qed.

Lemma room_messages_name_current_room_witness :
  In (EmitReveal "R1") (snd (step (User ClickReveal) joinedState))
  /\ "R1" = roomId joinedState
  /\ isConnected joinedState = true /\ isRevealed joinedState = false.
Proof.
  assert (Hin : In (EmitReveal "R1")
                   (snd (step (User ClickReveal) joinedState))).
  { simpl. left. reflexivity. }
  destruct (room_messages_name_current_room (User ClickReveal) joinedState
              (EmitReveal "R1") "R1" Hin eq_refl)
    as (Hroom & _ & _ & _ & _ & Hgate).
  split; [exact Hin|]. split; [exact Hroom|].
  apply Hgate. discriminate.
Defined.

(** X3: every join the component sends carries a non-empty player name,
    is the only message of its step, and leaves the component holding
    exactly that room id and that player name, with an empty players
    list. *)
Theorem join_message_matches_state
    (e : Event) (s : AppState) (rid pname : string) :
  In (EmitJoin rid pname) (snd (step e s)) ->
  pname <> EmptyString /\ hasSocket s = true
  /\ snd (step e s) = [EmitJoin rid pname]
  /\ roomId (fst (step e s)) = rid
  /\ playerName (fst (step e s)) = pname
  /\ players (fst (step e s)) = [].
Proof.
  intros Hin.
  destruct e as [io | ev | n outcome | c]; simpl in Hin; try contradiction.
  - simpl. destruct (truthy n) eqn:Hn; [|contradiction].
    destruct outcome; simpl in Hin |- *; try contradiction.
    destruct (hasSocket s) eqn:Hsock; [|contradiction].
    destruct Hin as [Heq|[]]. injection Heq as <- <-.
    apply truthy_true in Hn. repeat split; auto.
  - destruct c as [r n | n | i | | ]; simpl in Hin |- *.
    + destruct (inRoom s); [contradiction|]. unfold handleJoin in *.
      destruct (hasSocket s) eqn:Hsock; [|contradiction].
      destruct (truthy r) eqn:Hr; [|contradiction].
      destruct (truthy n) eqn:Hn; [|contradiction].
      simpl in Hin |- *. destruct Hin as [Heq|[]]. injection Heq as <- <-.
      apply truthy_true in Hn. repeat split; auto.
    + destruct (inRoom s); contradiction.
    + destruct (inRoom s && negb (votingDisabled s)); [|contradiction].
      destruct (nth_error cards i); [|contradiction].
      unfold handleCardClick in Hin.
      destruct (negb (isRevealed s) && isConnected s && hasSocket s
                && truthy (roomId s)); simpl in Hin; intuition discriminate.
    + destruct (inRoom s && negb (votingDisabled s)); [|contradiction].
      unfold requestReveal in Hin.
      destruct (hasSocket s); simpl in Hin; intuition discriminate.
    + destruct (inRoom s); [|contradiction].
      unfold requestReset in Hin.
      destruct (hasSocket s); simpl in Hin; intuition discriminate.
Qed.

Lemma join_message_matches_state_witness :
  In (EmitJoin "R7" "Ann")
     (snd (step (FetchSettled "Ann" (FetchOk "R7")) joinedState))
  /\ roomId (fst (step (FetchSettled "Ann" (FetchOk "R7")) joinedState))
     = "R7"
  /\ players (fst (step (FetchSettled "Ann" (FetchOk "R7")) joinedState))
     = [].
Proof.
  assert (Hin : In (EmitJoin "R7" "Ann")
                   (snd (step (FetchSettled "Ann" (FetchOk "R7"))
                              joinedState))).
  { simpl. left. reflexivity. }
  destruct (join_message_matches_state
              (FetchSettled "Ann" (FetchOk "R7")) joinedState "R7" "Ann" Hin)
    as (_ & _ & _ & Hroom & _ & Hplayers).
  split; [exact Hin|]. split; assumption.
Defined.

(** ** Invariants of the reachable states *)

(** X4: in every state the component reaches from its initial state, the
    connection flag is set only if the socket object exists. *)
Theorem connected_only_with_socket (es : list Event) :
  isConnected (fst (run es initialState)) = true ->
  hasSocket (fst (run es initialState)) = true.
Proof.
  apply reachable_connectedHasSocket. apply run_reachable. constructor.
Qed.

Lemma connected_only_with_socket_witness :
  isConnected (fst (run [ScriptLoaded true; FromSocket OnConnect]
                        initialState)) = true
  /\ hasSocket (fst (run [ScriptLoaded true; FromSocket OnConnect]
                         initialState)) = true.
Proof.
  split; [reflexivity|].
  apply (connected_only_with_socket [ScriptLoaded true; FromSocket OnConnect]).
  reflexivity.
Defined.

Lemma step_selection_in_cards (e : Event) (s : AppState) :
  (forall v, selectedCard s = Some v -> In v cards) ->
  forall v, selectedCard (fst (step e s)) = Some v -> In v cards.
Proof.
  intros Inv v Hsel.
  destruct e as [io | ev | n outcome | c]; simpl in Hsel.
  - destruct io; simpl in Hsel; apply Inv; exact Hsel.
  - destruct (hasSocket s); [|apply Inv; exact Hsel].
    destruct ev; simpl in Hsel; try (apply Inv; exact Hsel). discriminate.
  - destruct (truthy n); [|apply Inv; exact Hsel].
    destruct outcome; simpl in Hsel; apply Inv; exact Hsel.
  - destruct c as [r n | n | i | | ]; simpl in Hsel.
    + destruct (inRoom s); [apply Inv; exact Hsel|]. unfold handleJoin in Hsel.
      destruct (hasSocket s && truthy r && truthy n); simpl in Hsel;
        apply Inv; exact Hsel.
    + destruct (inRoom s); [apply Inv; exact Hsel|].
      unfold handleCreateRoomBegin in Hsel.
      destruct (truthy n); simpl in Hsel; apply Inv; exact Hsel.
    + destruct (inRoom s && negb (votingDisabled s));
        [|apply Inv; exact Hsel].
      destruct (nth_error cards i) as [card|] eqn:Hnth;
        [|apply Inv; exact Hsel].
      unfold handleCardClick in Hsel.
      destruct (negb (isRevealed s) && isConnected s && hasSocket s
                && truthy (roomId s)); simpl in Hsel;
        [|apply Inv; exact Hsel].
      injection Hsel as <-. eapply nth_error_In. exact Hnth.
    + destruct (inRoom s && negb (votingDisabled s)); apply Inv; exact Hsel.
    + destruct (inRoom s); apply Inv; exact Hsel.
Qed.

(** X5: in every reachable state the selected card is either absent or
    one of the values of the [cards] array. *)
Theorem selection_is_a_card (es : list Event) (v : number) :
  selectedCard (fst (run es initialState)) = Some v ->
  exists z : Z, In z [1; 2; 3; 5; 8; 13; 21] /\ v = ofZ z.
Proof.
  intros Hsel.
  assert (Hcards : In v cards).
  { revert v Hsel.
    assert (Hgen : forall s, (forall v, selectedCard s = Some v -> In v cards)
                     -> forall v, selectedCard (fst (run es s)) = Some v
                                  -> In v cards).
    { induction es as [|e es IH]; intros s Inv; [exact Inv|].
      rewrite run_cons. simpl. apply IH. apply step_selection_in_cards.
      exact Inv. }
    apply Hgen. simpl. discriminate. }
  unfold cards in Hcards. apply in_map_iff in Hcards.
  destruct Hcards as (z & Hz & Hin). exists z. auto.
Qed.

Lemma selection_is_a_card_witness :
  selectedCard (fst (run [ScriptLoaded true; FromSocket OnConnect;
                          User (ClickJoin "R1" "Ann"); User (ClickCard 4)]
                         initialState)) = Some (ofZ 8)
  /\ exists z : Z, In z [1; 2; 3; 5; 8; 13; 21] /\ ofZ 8 = ofZ z.
Proof.
  split; [reflexivity|].
  apply (selection_is_a_card
           [ScriptLoaded true; FromSocket OnConnect;
            User (ClickJoin "R1" "Ann"); User (ClickCard 4)]).
  reflexivity.
Defined.

Lemma step_room_has_name (e : Event) (s : AppState) :
  (inRoom s = true -> playerName s <> EmptyString) ->
  inRoom (fst (step e s)) = true ->
  playerName (fst (step e s)) <> EmptyString.
Proof.
  unfold inRoom. intros Inv.
  destruct e as [io | ev | n outcome | c]; simpl.
  - destruct io; simpl; apply Inv.
  - destruct (hasSocket s); [|apply Inv].
    destruct ev; simpl; try apply Inv. discriminate.
  - destruct (truthy n) eqn:Hn; [|apply Inv].
    destruct outcome; simpl; try apply Inv.
    intros _. apply truthy_true. exact Hn.
  - destruct c as [r n | n | i | | ]; simpl; unfold inRoom.
    + destruct (truthy (roomId s)) eqn:Hroom;
        [simpl; intros _; apply Inv; reflexivity|]. unfold handleJoin.
      destruct (hasSocket s); simpl; [|rewrite Hroom; discriminate].
      destruct (truthy r); simpl; [|rewrite Hroom; discriminate].
      destruct (truthy n) eqn:Hn; simpl; [|rewrite Hroom; discriminate].
      intros _. apply truthy_true. exact Hn.
    + destruct (truthy (roomId s)) eqn:Hroom;
        [simpl; intros _; apply Inv; reflexivity|].
      unfold handleCreateRoomBegin.
      destruct (truthy n); simpl; rewrite Hroom; discriminate.
    + destruct (truthy (roomId s) && negb (votingDisabled s));
        [|apply Inv].
      destruct (nth_error cards i); [|apply Inv]. unfold handleCardClick.
      destruct (negb (isRevealed s) && isConnected s && hasSocket s
                && truthy (roomId s)); simpl; apply Inv.
    + destruct (truthy (roomId s) && negb (votingDisabled s)); apply Inv.
    + destruct (truthy (roomId s)) eqn:Hroom; simpl; rewrite ?Hroom;
        [intros _; apply Inv; reflexivity | discriminate].
Qed.

(** X6: in every reachable state that is inside a room (non-empty room
    id), the player name is not empty. *)
Theorem room_implies_player_name (es : list Event) :
  roomId (fst (run es initialState)) <> EmptyString ->
  playerName (fst (run es initialState)) <> EmptyString.
Proof.
  intros Hroom. apply truthy_true in Hroom. revert Hroom.
  change (truthy (roomId (fst (run es initialState))))
    with (inRoom (fst (run es initialState))).
  assert (Hgen : forall s, (inRoom s = true -> playerName s <> EmptyString)
                   -> inRoom (fst (run es s)) = true
                   -> playerName (fst (run es s)) <> EmptyString).
  { induction es as [|e es IH]; intros s Inv; [exact Inv|].
    rewrite run_cons. simpl. apply IH. apply step_room_has_name. exact Inv. }
  apply Hgen. simpl. discriminate.
Qed.

Lemma room_implies_player_name_witness :
  roomId (fst (run [FetchSettled "Ann" (FetchOk "R7")] initialState))
  <> EmptyString
  /\ playerName (fst (run [FetchSettled "Ann" (FetchOk "R7")] initialState))
     <> EmptyString.
Proof.
  assert (H : roomId (fst (run [FetchSettled "Ann" (FetchOk "R7")]
                               initialState)) <> EmptyString).
  { simpl. discriminate. }
  split; [exact H|].
  exact (room_implies_player_name [FetchSettled "Ann" (FetchOk "R7")] H).
Defined.

(** ** The masked-vote broadcast *)

Lemma maskIfVoted_commute (a b : string) (p : Player) :
  maskIfVoted a (maskIfVoted b p) = maskIfVoted b (maskIfVoted a p).
Proof.
  unfold maskIfVoted.
  destruct (String.eqb (id p) a) eqn:Ha; destruct (String.eqb (id p) b) eqn:Hb;
    simpl; rewrite ?Ha, ?Hb; reflexivity.
Qed.

Lemma maskIfVoted_idempotent (a : string) (p : Player) :
  maskIfVoted a (maskIfVoted a p) = maskIfVoted a p.
Proof.
  unfold maskIfVoted.
  destruct (String.eqb (id p) a) eqn:Ha; simpl; rewrite Ha; reflexivity.
Qed.

(** X7: two [player_voted] broadcasts give the same state in either order
    of arrival, and a repeated one changes nothing more. *)
Theorem player_voted_order_irrelevant (s : AppState) (a b : string) :
  handleSocketEvent (OnPlayerVoted a) (handleSocketEvent (OnPlayerVoted b) s)
  = handleSocketEvent (OnPlayerVoted b) (handleSocketEvent (OnPlayerVoted a) s)
  /\ handleSocketEvent (OnPlayerVoted a)
       (handleSocketEvent (OnPlayerVoted a) s)
     = handleSocketEvent (OnPlayerVoted a) s.
Proof.
  simpl. unfold onPlayerVoted, setPlayers. simpl. split; f_equal.
  - rewrite !map_map. apply map_ext. intros p. apply maskIfVoted_commute.
  - rewrite map_map. apply map_ext. intros p. apply maskIfVoted_idempotent.
Qed.

(** X8: a [player_voted] broadcast for an id that no player of the local
    list has leaves the whole state as it was. *)
Theorem player_voted_unknown_id (s : AppState) (playerId : string) :
  Forall (fun p => id p <> playerId) (players s) ->
  handleSocketEvent (OnPlayerVoted playerId) s = s.
Proof.
  intros Hall. simpl. unfold onPlayerVoted, setPlayers.
  assert (Hmap : map (maskIfVoted playerId) (players s) = players s).
  { induction Hall as [|p ps Hp _ IH]; [reflexivity|].
    simpl. rewrite IH. unfold maskIfVoted.
    apply String.eqb_neq in Hp. rewrite Hp. reflexivity. }
  rewrite Hmap. destruct s. reflexivity.
Qed.

Lemma player_voted_unknown_id_witness :
  handleSocketEvent (OnPlayerVoted "p9") joinedState = joinedState.
Proof.
  apply (player_voted_unknown_id joinedState "p9").
  repeat constructor; simpl; discriminate.
Defined.



(** ** More on the average *)

Lemma numericVotes_permutation (ps ps' : list Player) :
  Permutation ps ps' -> Permutation (numericVotes ps) (numericVotes ps').
Proof.
  induction 1 as [|p ps ps' _ IH|p q ps|ps1 ps2 ps3 _ IH1 _ IH2].
  - constructor.
  - simpl. destruct (vote p); [constructor|idtac|idtac]; exact IH.
  - simpl. destruct (vote p); destruct (vote q);
      try apply Permutation_refl; try (constructor; apply Permutation_refl).
  - eapply Permutation_trans; eassumption.
Qed.

Lemma sumZ_permutation (zs zs' : list Z) :
  Permutation zs zs' -> sumZ zs = sumZ zs'.
Proof.
  induction 1; simpl; lia.
Qed.

Lemma average_as_quotient (ps : list Player) (zs : list Z) :
  numericVotes ps = map ofZ zs -> zs <> [] ->
  Forall (fun z => 0 <= z) zs -> sumZ zs < 2 ^ 53 ->
  calculateAverage ps
  = toFixed1 (div (ofZ (sumZ zs)) (ofZ (Z.of_nat (List.length zs)))).
Proof.
  intros Hvotes Hne Hall Hsum.
  rewrite calculateAverage_numeric, Hvotes.
  destruct zs as [|z zs]; [contradiction|].
  change (map ofZ (z :: zs)) with (ofZ z :: map ofZ zs) at 1.
  cbv iota. rewrite length_map.
  rewrite Binary64Facts.fold_add_ofZ by (assumption || lia).
  rewrite Z.add_0_l. reflexivity.
Qed.

(** X10: when the numeric votes are non-negative integers whose total is
    below 2^53, the average does not depend on the order of the players. *)
Theorem calculateAverage_order_independent
    (ps ps' : list Player) (zs : list Z) :
  Permutation ps ps' ->
  numericVotes ps = map ofZ zs ->
  Forall (fun z => 0 <= z) zs -> sumZ zs < 2 ^ 53 ->
  calculateAverage ps' = calculateAverage ps.
Proof.
  intros Hperm Hvotes Hall Hsum.
  apply numericVotes_permutation in Hperm. rewrite Hvotes in Hperm.
  apply Permutation_sym in Hperm.
  apply Permutation_map_inv in Hperm. destruct Hperm as (zs' & Hvotes' & Hp).
  destruct zs as [|z zs].
  - apply Permutation_nil in Hp. subst zs'.
    rewrite !calculateAverage_numeric, Hvotes, Hvotes'. reflexivity.
  - assert (Hne' : zs' <> []).
    { intros ->. apply Permutation_sym, Permutation_nil in Hp. discriminate. }
    rewrite (average_as_quotient ps (z :: zs)); try assumption;
      [|discriminate].
    rewrite (average_as_quotient ps' zs'); try assumption.
    + rewrite (sumZ_permutation _ _ Hp), (Permutation_length Hp). reflexivity.
    + eapply Permutation_Forall; eassumption.
    + rewrite <- (sumZ_permutation _ _ Hp). assumption.
Qed.

Lemma calculateAverage_order_independent_witness :
  calculateAverage (rev threeFiveEight) = calculateAverage threeFiveEight.
Proof.
  apply (calculateAverage_order_independent threeFiveEight
           (rev threeFiveEight) [3; 5; 8]).
  - apply Permutation_rev.
  - reflexivity.
  - repeat constructor; lia.
  - vm_compute. reflexivity.
Defined.

(** With larger numbers the sum is rounded on the way and the order shows:
    2^53, 1, 1 sums to 2^53, while 1, 1, 2^53 sums to 2^53 + 2. *)
Example calculateAverage_order_matters_beyond_2_53 :
  calculateAverage [voted "a" (2 ^ 53); voted "b" 1; voted "c" 1]
  <> calculateAverage [voted "b" 1; voted "c" 1; voted "a" (2 ^ 53)].
Proof. vm_compute. discriminate. Qed.

Lemma average_nearest_tenth (ps : list Player) (zs : list Z) :
  numericVotes ps = map ofZ zs -> zs <> [] ->
  Forall (fun z => 0 <= z) zs -> sumZ zs <= 2 ^ 48 ->
  Z.of_nat (List.length ps) < 2 ^ 32 ->
  exists n : Z,
    0 <= n
    /\ 2 * Z.abs (10 * sumZ zs - n * Z.of_nat (List.length zs))
       <= Z.of_nat (List.length zs)
    /\ calculateAverage ps
       = decimalDigits (n / 10) ++ "." ++ decimalDigits (n mod 10).
Proof.
  intros Hvotes Hne Hall Hsum Hlen.
  assert (Hlen' : Z.of_nat (List.length zs) < 2 ^ 32).
  { pose proof (numericVotes_length ps) as Hle.
    rewrite Hvotes, length_map in Hle. lia. }
  rewrite calculateAverage_numeric, Hvotes.
  destruct zs as [|z zs]; [contradiction|].
  exact (Binary64Facts.average_of_integers (z :: zs) Hne Hall Hsum Hlen').
Qed.

Lemma length_positive (zs : list Z) : zs <> [] -> 0 < Z.of_nat (List.length zs).
Proof. destruct zs; [contradiction|]. simpl List.length. lia. Qed.

(** X11: when the exact mean of non-negative integer votes is a whole
    number of tenths, the average shows exactly that number: no rounding
    error of the division reaches the printed digit. *)
Theorem calculateAverage_exact_tenths
    (ps : list Player) (zs : list Z) (n0 : Z) :
  numericVotes ps = map ofZ zs -> zs <> [] ->
  Forall (fun z => 0 <= z) zs -> sumZ zs <= 2 ^ 48 ->
  Z.of_nat (List.length ps) < 2 ^ 32 ->
  10 * sumZ zs = n0 * Z.of_nat (List.length zs) ->
  calculateAverage ps
  = decimalDigits (n0 / 10) ++ "." ++ decimalDigits (n0 mod 10).
Proof.
  intros Hvotes Hne Hall Hsum Hlen Hexact.
  destruct (average_nearest_tenth ps zs Hvotes Hne Hall Hsum Hlen)
    as (n & Hn & Hnear & Hres).
  pose proof (length_positive zs Hne) as Hb.
  assert (Heq : n = n0) by nia.
  subst n. exact Hres.
Qed.

Lemma calculateAverage_exact_tenths_witness :
  calculateAverage [voted "A" 5; voted "B" 8]
  = decimalDigits (65 / 10) ++ "." ++ decimalDigits (65 mod 10).
Proof.
  apply (calculateAverage_exact_tenths [voted "A" 5; voted "B" 8] [5; 8] 65).
  - reflexivity.
  - discriminate.
  - repeat constructor; lia.
  - vm_compute. discriminate.
  - vm_compute. reflexivity.
  - reflexivity.
Defined.

Lemma all_equal_votes (vs : list number) (z : Z) :
  Forall (fun v => v = ofZ z) vs -> vs = map ofZ (repeat z (List.length vs)).
Proof.
  induction 1 as [|v vs Hv _ IH]; [reflexivity|].
  simpl. rewrite <- IH, Hv. reflexivity.
Qed.

Lemma sumZ_repeat (z : Z) (k : nat) : sumZ (repeat z k) = z * Z.of_nat k.
Proof.
  induction k as [|k IH]; [simpl; lia|].
  cbn [repeat sumZ fold_right]. fold (sumZ (repeat z k)). rewrite IH. lia.
Qed.

(** X12: when every numeric vote is the same integer [z] (between 0 and
    2^16), the average shows [z] followed by a point and a zero, however
    many players voted. *)
Theorem calculateAverage_unanimous (ps : list Player) (z : Z) :
  numericVotes ps <> [] ->
  Forall (fun v => v = ofZ z) (numericVotes ps) ->
  0 <= z <= 2 ^ 16 -> Z.of_nat (List.length ps) < 2 ^ 32 ->
  calculateAverage ps = decimalDigits z ++ ".0".
Proof.
  intros Hne Hall Hz Hlen.
  pose proof (all_equal_votes _ z Hall) as Hvotes.
  pose proof (numericVotes_length ps) as Hle.
  set (k := List.length (numericVotes ps)) in *.
  assert (Hk : (0 < k)%nat).
  { unfold k. destruct (numericVotes ps); [contradiction|simpl; lia]. }
  destruct (average_nearest_tenth ps (repeat z k) Hvotes)
    as (n & Hn & Hnear & Hres).
  - destruct k; [lia|discriminate].
  - apply Forall_forall. intros x Hx. apply repeat_spec in Hx. lia.
  - rewrite sumZ_repeat.
    assert (z * Z.of_nat k <= 2 ^ 16 * 2 ^ 32) by nia.
    change (2 ^ 48) with (2 ^ 16 * 2 ^ 32). assumption.
  - assumption.
  - rewrite sumZ_repeat, repeat_length in Hnear.
    assert (Heq : n = 10 * z) by nia.
    rewrite Hres, Heq.
    replace (10 * z / 10) with z by (rewrite Z.mul_comm, Z.div_mul; lia).
    replace ((10 * z) mod 10) with 0
      by (rewrite Z.mul_comm, Z.mod_mul; lia).
    reflexivity.
Qed.

Lemma calculateAverage_unanimous_witness :
  calculateAverage (repeat (voted "a" 13) 4 ++ nobodyVoted)
  = decimalDigits 13 ++ ".0".
Proof.
  apply (calculateAverage_unanimous (repeat (voted "a" 13) 4 ++ nobodyVoted) 13).
  - discriminate.
  - repeat constructor.
  - vm_compute. split; discriminate.
  - vm_compute. reflexivity.
Defined.

Lemma sumZ_between (zs : list Z) (lo hi : Z) :
  Forall (fun z => lo <= z <= hi) zs ->
  lo * Z.of_nat (List.length zs) <= sumZ zs <= hi * Z.of_nat (List.length zs).
Proof.
  induction 1 as [|z zs Hz _ IH]; [simpl; lia|].
  simpl sumZ. simpl List.length. lia.
Qed.

(** X13: the average shown lies between the smallest and the largest
    numeric vote: if every vote is an integer between [lo] and [hi], the
    number of tenths printed is between [10 * lo] and [10 * hi]. *)
Theorem calculateAverage_between_votes
    (ps : list Player) (zs : list Z) (lo hi : Z) :
  numericVotes ps = map ofZ zs -> zs <> [] ->
  0 <= lo -> Forall (fun z => lo <= z <= hi) zs -> sumZ zs <= 2 ^ 48 ->
  Z.of_nat (List.length ps) < 2 ^ 32 ->
  exists n : Z,
    10 * lo <= n <= 10 * hi
    /\ calculateAverage ps
       = decimalDigits (n / 10) ++ "." ++ decimalDigits (n mod 10).
Proof.
  intros Hvotes Hne Hlo Hrange Hsum Hlen.
  assert (Hall : Forall (fun z => 0 <= z) zs).
  { eapply Forall_impl; [|exact Hrange]. simpl. intros z Hz. lia. }
  destruct (average_nearest_tenth ps zs Hvotes Hne Hall Hsum Hlen)
    as (n & Hn & Hnear & Hres).
  pose proof (length_positive zs Hne) as Hb.
  pose proof (sumZ_between zs lo hi Hrange) as [Hs1 Hs2].
  exists n. split; [|exact Hres]. split; nia.
Qed.

Lemma calculateAverage_between_votes_witness :
  exists n : Z,
    10 * 3 <= n <= 10 * 8
    /\ calculateAverage threeFiveEight
       = decimalDigits (n / 10) ++ "." ++ decimalDigits (n mod 10).
Proof.
  apply (calculateAverage_between_votes threeFiveEight [3; 5; 8] 3 8).
  - reflexivity.
  - discriminate.
  - lia.
  - repeat constructor; lia.
  - vm_compute. discriminate.
  - vm_compute. reflexivity.
Defined.

Lemma fold_add_nan (vs : list number) :
  fold_left add vs S754_nan = S754_nan.
Proof. induction vs as [|v vs IH]; [reflexivity|exact IH]. Qed.

Lemma fold_add_with_nan (vs : list number) :
  In S754_nan vs -> forall acc, fold_left add vs acc = S754_nan.
Proof.
  induction vs as [|v vs IH]; intros Hin acc; [contradiction|].
  destruct Hin as [->|Hin].
  - simpl. replace (add acc S754_nan) with S754_nan
      by (destruct acc; reflexivity).
    apply fold_add_nan.
  - simpl. apply IH. exact Hin.
Qed.

(** X14: a vote that is the number NaN (it passes the [typeof] test)
    spoils the average: whatever the other votes are, NaN is shown. *)
Theorem calculateAverage_nan (ps : list Player) :
  In S754_nan (numericVotes ps) -> calculateAverage ps = "NaN".
Proof.
  intros Hin. rewrite calculateAverage_numeric.
  destruct (numericVotes ps) as [|v vs] eqn:Hvs; [contradiction|].
  rewrite (fold_add_with_nan _ Hin). reflexivity.
Qed.

Lemma calculateAverage_nan_witness :
  calculateAverage (threeFiveEight ++ [mkPlayer "n" "n" (VNum S754_nan)])
  = "NaN".
Proof.
  apply (calculateAverage_nan
           (threeFiveEight ++ [mkPlayer "n" "n" (VNum S754_nan)])).
  simpl. tauto.
Defined.

(** ** What the view shows *)

Lemma step_keeps_hidden (e : Event) (s : AppState) :
  isRevealed s = false -> isVotesRevealed e = false ->
  isRevealed (fst (step e s)) = false.
Proof.
  intros Hrev He.
  destruct e as [io | ev | n outcome | c]; simpl.
  - destruct io; simpl; auto.
  - destruct (hasSocket s); [|auto].
    destruct ev; simpl; auto; discriminate He.
  - destruct (truthy n); [|auto]. destruct outcome; simpl; auto.
  - destruct c as [r n | n | i | | ]; simpl.
    + destruct (inRoom s); [auto|]. unfold handleJoin.
      destruct (hasSocket s && truthy r && truthy n); simpl; auto.
    + destruct (inRoom s); [auto|]. unfold handleCreateRoomBegin.
      destruct (truthy n); simpl; auto.
    + destruct (inRoom s && negb (votingDisabled s)); [|auto].
      destruct (nth_error cards i); [|auto]. unfold handleCardClick.
      destruct (negb (isRevealed s) && isConnected s && hasSocket s
                && truthy (roomId s)); simpl; auto.
    + destruct (inRoom s && negb (votingDisabled s)); auto.
    + destruct (inRoom s); auto.
Qed.

(** X15: from a state where the votes are not revealed, and until a
    [votes_revealed] broadcast arrives, the game board shows a question
    mark in every player cell, no cell in the revealed style, no dimmed
    card and no average, whatever players lists are broadcast, even with
    numeric votes in them. *)
Theorem votes_hidden_until_reveal (es : list Event) (s : AppState) :
  isRevealed s = false ->
  forallb (fun e => negb (isVotesRevealed e)) es = true ->
  match render (fst (run es s)) with
  | JoinForm _ => True
  | GameBoard _ _ cells buttons _ average =>
      Forall (fun c => cellContent c = VMasked /\ cellStyle c <> CellRevealed)
             cells
      /\ Forall (fun b => cardDimmed b = false) buttons
      /\ average = None
  end.
Proof.
  intros Hrev Hes.
  assert (Hrev' : isRevealed (fst (run es s)) = false).
  { revert s Hrev. induction es as [|e es IH]; intros s Hrev; [exact Hrev|].
    simpl in Hes. apply andb_true_iff in Hes. destruct Hes as [He Hes].
    apply negb_true_iff in He. rewrite run_cons. simpl.
    apply (IH Hes). apply step_keeps_hidden; assumption. }
  generalize dependent (fst (run es s)). intros s' Hrev'.
  unfold render. destruct (inRoom s'); [|exact I].
  rewrite Hrev'. split; [|split; [|reflexivity]].
  - apply Forall_map. apply Forall_forall. intros p _.
    unfold playerCell. rewrite Hrev'. simpl.
    split; [reflexivity|].
    destruct (hasSelection s' && String.eqb (name p) (playerName s'));
      discriminate.
  - apply Forall_map. apply Forall_forall. intros c _.
    unfold cardButton. simpl. exact Hrev'.
Qed.

Lemma votes_hidden_until_reveal_witness :
  match render (fst (run [FromSocket (OnPlayerListUpdate [bob]);
                          User (ClickCard 1);
                          FromSocket (OnGameReset [bob; ann])] joinedState))
  with
  | JoinForm _ => True
  | GameBoard _ _ cells buttons _ average =>
      Forall (fun c => cellContent c = VMasked /\ cellStyle c <> CellRevealed)
             cells
      /\ Forall (fun b => cardDimmed b = false) buttons
      /\ average = None
  end.
Proof.
  apply (votes_hidden_until_reveal
           [FromSocket (OnPlayerListUpdate [bob]); User (ClickCard 1);
            FromSocket (OnGameReset [bob; ann])] joinedState);
    reflexivity.
Defined.

Lemma socket_step (ev : SocketEvent) (s : AppState) :
  hasSocket s = true -> step (FromSocket ev) s = (handleSocketEvent ev s, []).
Proof. intros Hsock. cbn [step]. rewrite Hsock. reflexivity. Qed.

Lemma join_step (r n : string) (s : AppState) :
  inRoom s = false -> hasSocket s = true ->
  r <> EmptyString -> n <> EmptyString ->
  step (User (ClickJoin r n)) s
  = (setError EmptyString
       (setPlayers [] (setPlayerName n (setRoomId r s))),
     [EmitJoin r n]).
Proof.
  intros Hroom Hsock Hr Hn. apply truthy_true in Hr, Hn.
  cbn [step click]. rewrite Hroom. unfold handleJoin.
  rewrite Hsock, Hr, Hn. reflexivity.
Qed.

(** X16: the reveal flag survives a disconnect, so after a disconnect in
    the revealed state, a reconnect and a new join, the first
    [player_list_update] is shown as revealed: every cell shows the vote
    of the payload (a question mark only for an absent vote), the Reveal
    button is disabled and the average of the payload is displayed. *)
Theorem stale_reveal_shows_list_update
    (s : AppState) (r n : string) (data : list Player) :
  isRevealed s = true -> hasSocket s = true ->
  r <> EmptyString -> n <> EmptyString ->
  exists (cells : list PlayerCell) (buttons : list CardButton),
    render (fst (run [FromSocket OnDisconnect; FromSocket OnConnect;
                      User (ClickJoin r n);
                      FromSocket (OnPlayerListUpdate data)] s))
    = GameBoard r true cells buttons true (Some (calculateAverage data))
    /\ map cellContent cells
       = map (fun p => shownWhenRevealed (vote p)) data.
Proof.
  intros Hrev Hsock Hr Hn.
  rewrite !run_cons.
  rewrite (socket_step OnDisconnect s Hsock). cbn [fst].
  rewrite (socket_step OnConnect) by exact Hsock. cbn [fst].
  rewrite (join_step r n) by (reflexivity || assumption). cbn [fst].
  rewrite (socket_step (OnPlayerListUpdate data)) by exact Hsock.
  cbn [fst run].
  apply truthy_true in Hr.
  unfold render, inRoom, votingDisabled.
  cbn [handleSocketEvent onPlayerListUpdate onConnect onDisconnect setError
       setPlayers setPlayerName setRoomId setIsConnected roomId isRevealed
       isConnected players].
  rewrite Hr, Hrev. cbn [orb].
  eexists. eexists. split; [reflexivity|].
  rewrite map_map. apply map_ext. intros p.
  unfold playerCell.
  cbn [handleSocketEvent onPlayerListUpdate onConnect onDisconnect setError
       setPlayers setPlayerName setRoomId setIsConnected isRevealed
       cellContent].
  rewrite Hrev. destruct (vote p); reflexivity.
Qed.

Lemma stale_reveal_shows_list_update_witness :
  exists (cells : list PlayerCell) (buttons : list CardButton),
    render (fst (run [FromSocket OnDisconnect; FromSocket OnConnect;
                      User (ClickJoin "R2" "Ann");
                      FromSocket (OnPlayerListUpdate [bob; ann])]
                     revealedState))
    = GameBoard "R2" true cells buttons true
        (Some (calculateAverage [bob; ann]))
    /\ map cellContent cells = [VNum (ofZ 8); VMasked].
Proof.
  apply (stale_reveal_shows_list_update revealedState "R2" "Ann" [bob; ann]);
    [reflexivity | reflexivity | discriminate | discriminate].
Defined.

Lemma card_highlight_pattern (v : number) :
  In v cards ->
  exists i : nat,
    nth_error cards i = Some v
    /\ map (strictEq v) cards
       = map (fun j => Nat.eqb j i) (seq 0 (List.length cards)).
Proof.
  intros Hin. unfold cards in Hin. simpl in Hin.
  destruct Hin as [<-|[<-|[<-|[<-|[<-|[<-|[<-|[]]]]]]]].
  - exists 0%nat. split; vm_compute; reflexivity.
  - exists 1%nat. split; vm_compute; reflexivity.
  - exists 2%nat. split; vm_compute; reflexivity.
  - exists 3%nat. split; vm_compute; reflexivity.
  - exists 4%nat. split; vm_compute; reflexivity.
  - exists 5%nat. split; vm_compute; reflexivity.
  - exists 6%nat. split; vm_compute; reflexivity.
Qed.

Lemma vote_step_state (e : Event) (s : AppState) (rid : string) (v : number) :
  In (EmitVote rid v) (snd (step e s)) ->
  In v cards /\ fst (step e s) = setSelectedCard (Some v) s
  /\ isRevealed s = false.
Proof.
  intros Hin.
  destruct e as [io | ev | n outcome | c]; simpl in Hin; try contradiction.
  - destruct (truthy n); [|contradiction].
    destruct outcome; simpl in Hin; try contradiction.
    destruct (hasSocket s); simpl in Hin; intuition discriminate.
  - destruct c as [r n | n | i | | ]; cbn [step click] in Hin |- *.
    + destruct (inRoom s); [contradiction|]. unfold handleJoin in Hin.
      destruct (hasSocket s && truthy r && truthy n); simpl in Hin;
        intuition discriminate.
    + destruct (inRoom s); contradiction.
    + destruct (inRoom s && negb (votingDisabled s)); [|contradiction].
      destruct (nth_error cards i) as [card|] eqn:Hnth; [|contradiction].
      unfold handleCardClick in *.
      destruct (isRevealed s) eqn:Hrev; [contradiction|].
      destruct (negb false && isConnected s && hasSocket s
                && truthy (roomId s)); simpl in Hin; [|contradiction].
      destruct Hin as [Heq|[]]. injection Heq as _ <-.
      split; [eapply nth_error_In; exact Hnth|]. split; reflexivity.
    + destruct (inRoom s && negb (votingDisabled s)); [|contradiction].
      unfold requestReveal in Hin.
      destruct (hasSocket s); simpl in Hin; intuition discriminate.
    + destruct (inRoom s); [|contradiction].
      unfold requestReset in Hin.
      destruct (hasSocket s); simpl in Hin; intuition discriminate.
Qed.

(** X17: when a vote is sent, the value sent becomes the selected card and,
    in the view that follows, exactly one card button is highlighted: the
    one of that value. *)
Theorem vote_highlights_its_card
    (e : Event) (s : AppState) (rid : string) (v : number) :
  In (EmitVote rid v) (snd (step e s)) ->
  selectedCard (fst (step e s)) = Some v
  /\ exists i : nat,
       nth_error cards i = Some v
       /\ map cardHighlighted (map (cardButton (fst (step e s))) cards)
          = map (fun j => Nat.eqb j i) (seq 0 (List.length cards)).
Proof.
  intros Hin.
  destruct (vote_step_state e s rid v Hin) as (Hcards & Hstate & Hrev).
  rewrite Hstate. split; [reflexivity|].
  destruct (card_highlight_pattern v Hcards) as (i & Hnth & Hpattern).
  exists i. split; [exact Hnth|].
  rewrite map_map, <- Hpattern. apply map_ext. intros c.
  unfold cardButton, isSelected. cbn [cardHighlighted setSelectedCard
                                      selectedCard isRevealed].
  rewrite Hrev. apply andb_true_r.
Qed.

Lemma vote_highlights_its_card_witness :
  In (EmitVote "R1" (ofZ 5)) (snd (step (User (ClickCard 3)) joinedState))
  /\ exists i : nat,
       nth_error cards i = Some (ofZ 5)
       /\ map cardHighlighted
            (map (cardButton (fst (step (User (ClickCard 3)) joinedState)))
                 cards)
          = map (fun j => Nat.eqb j i) (seq 0 (List.length cards)).
Proof.
  assert (Hin : In (EmitVote "R1" (ofZ 5))
                   (snd (step (User (ClickCard 3)) joinedState))).
  { simpl. left. reflexivity. }
  split; [exact Hin|].
  exact (proj2 (vote_highlights_its_card (User (ClickCard 3)) joinedState
                  "R1" (ofZ 5) Hin)).
Defined.



(** ** Joining again, creating a room *)

(** X19: after a disconnect the join form is back, and with the socket
    object a join with both fields filled in is sent at once, before any
    reconnect: the component is in the new room with the new name, an
    empty players list, no error, and still marked as not connected. *)
Theorem rejoin_after_disconnect (s : AppState) (r n : string) :
  hasSocket s = true -> r <> EmptyString -> n <> EmptyString ->
  snd (run [FromSocket OnDisconnect; User (ClickJoin r n)] s)
  = [EmitJoin r n]
  /\ roomId (fst (run [FromSocket OnDisconnect; User (ClickJoin r n)] s)) = r
  /\ playerName (fst (run [FromSocket OnDisconnect; User (ClickJoin r n)] s))
     = n
  /\ players (fst (run [FromSocket OnDisconnect; User (ClickJoin r n)] s))
     = []
  /\ error (fst (run [FromSocket OnDisconnect; User (ClickJoin r n)] s))
     = EmptyString
  /\ isConnected (fst (run [FromSocket OnDisconnect; User (ClickJoin r n)] s))
     = false.
Proof.
  intros Hsock Hr Hn.
  rewrite !run_cons.
  rewrite (socket_step OnDisconnect s Hsock). cbn [fst snd].
  rewrite (join_step r n) by (reflexivity || assumption).
  repeat split.
Qed.

Lemma rejoin_after_disconnect_witness :
  snd (run [FromSocket OnDisconnect; User (ClickJoin "R2" "Ann")]
           revealedState) = [EmitJoin "R2" "Ann"]
  /\ roomId (fst (run [FromSocket OnDisconnect; User (ClickJoin "R2" "Ann")]
                      revealedState)) = "R2".
Proof.
  destruct (rejoin_after_disconnect revealedState "R2" "Ann")
    as (Hout & Hroom & _); [reflexivity | discriminate | discriminate |].
  split; assumption.
Defined.

Lemma create_room_step_ok (r n : string) (s : AppState) :
  hasSocket s = true -> n <> EmptyString ->
  step (FetchSettled n (FetchOk r)) s
  = (setPlayers [] (setPlayerName n (setRoomId r s)), [EmitJoin r n]).
Proof.
  intros Hsock Hn. apply truthy_true in Hn.
  cbn [step]. rewrite Hn. cbn [handleCreateRoomResume]. rewrite Hsock.
  reflexivity.
Qed.

Lemma create_room_click (n : string) (s : AppState) :
  inRoom s = false -> n <> EmptyString ->
  step (User (ClickCreateRoom n)) s = (s, []).
Proof.
  intros Hroom Hn. apply truthy_true in Hn.
  cbn [step click]. rewrite Hroom. unfold handleCreateRoomBegin.
  rewrite Hn. reflexivity.
Qed.

(** X20: outside a room and with the socket object, creating a room whose
    request returns the id [r] sends the same join as typing [r] and
    clicking Join, and ends in the same state except for the error
    message, which Join clears and create-room leaves as it was. *)
Theorem create_room_joins_like_join (s : AppState) (r n : string) :
  inRoom s = false -> hasSocket s = true ->
  r <> EmptyString -> n <> EmptyString ->
  snd (run [User (ClickCreateRoom n); FetchSettled n (FetchOk r)] s)
  = snd (run [User (ClickJoin r n)] s)
  /\ sameButError
       (fst (run [User (ClickCreateRoom n); FetchSettled n (FetchOk r)] s))
       (fst (run [User (ClickJoin r n)] s))
  /\ error (fst (run [User (ClickCreateRoom n);
                      FetchSettled n (FetchOk r)] s)) = error s
  /\ error (fst (run [User (ClickJoin r n)] s)) = EmptyString.
Proof.
  intros Hroom Hsock Hr Hn.
  rewrite !run_cons.
  rewrite (create_room_click n s Hroom Hn). cbn [fst snd].
  rewrite (create_room_step_ok r n s Hsock Hn).
  rewrite (join_step r n s Hroom Hsock Hr Hn).
  repeat split.
Qed.

Lemma create_room_joins_like_join_witness :
  snd (run [User (ClickCreateRoom "Ann"); FetchSettled "Ann" (FetchOk "R7")]
           (setError "old" (setSocketRef (Some (mkSocket backendUrl))
                              initialState)))
  = [EmitJoin "R7" "Ann"]
  /\ error (fst (run [User (ClickCreateRoom "Ann");
                      FetchSettled "Ann" (FetchOk "R7")]
                     (setError "old"
                        (setSocketRef (Some (mkSocket backendUrl))
                           initialState)))) = "old".
Proof.
  destruct (create_room_joins_like_join
              (setError "old" (setSocketRef (Some (mkSocket backendUrl))
                                 initialState)) "R7" "Ann")
    as (Hout & _ & Herr & _);
    [reflexivity | reflexivity | discriminate | discriminate |].
  split; [rewrite Hout; reflexivity | exact Herr].
Defined.

(** X21: outside a room, a create-room attempt that fails (empty name,
    HTTP status not ok, or an exception of the request) sends nothing and
    changes nothing but the error message, which is not empty and is what
    the join form then shows. *)
Theorem failed_create_room_only_sets_error
    (s : AppState) (n : string) (outcome : FetchOutcome) :
  inRoom s = false ->
  n = EmptyString \/ isFetchOk outcome = false ->
  exists message : string,
    message <> EmptyString
    /\ run [User (ClickCreateRoom n); FetchSettled n outcome] s
       = (setError message s, [])
    /\ render (setError message s) = JoinForm (Some message).
Proof.
  intros Hroom Hfail.
  assert (Hshow : forall message, truthy message = true ->
            render (setError message s) = JoinForm (Some message)).
  { intros message Hm. unfold render, inRoom in *. simpl.
    rewrite Hroom, Hm. reflexivity. }
  rewrite !run_cons. cbn [step click]. rewrite Hroom.
  unfold handleCreateRoomBegin.
  destruct (truthy n) eqn:Hn.
  - destruct Hfail as [->|Hfail]; [discriminate Hn|].
    cbn [fst snd run app].
    destruct outcome as [r | status | message | ]; [discriminate Hfail| | |];
      cbn [handleCreateRoomResume fst snd];
      eexists; (split; [|split; [reflexivity|apply Hshow; reflexivity]]);
      apply truthy_true; reflexivity.
  - cbn [fst snd run app].
    eexists; (split; [|split; [reflexivity|apply Hshow; reflexivity]]).
    discriminate.
Qed.

Lemma failed_create_room_only_sets_error_witness :
  exists message : string,
    message <> EmptyString
    /\ run [User (ClickCreateRoom "Ann");
            FetchSettled "Ann" (FetchNotOk 503)] initialState
       = (setError message initialState, [])
    /\ render (setError message initialState) = JoinForm (Some message).
Proof.
  apply (failed_create_room_only_sets_error initialState "Ann"
           (FetchNotOk 503)); [reflexivity|right; reflexivity].
Defined.
